(** * The connection-state engine of web3-react: store and actions

    A shallow embedding of [createWeb3ReactStoreAndActions]
    (src/unnamed/part_000): the zustand store holding one connector's
    [Web3ReactState], the [nullifier] counter, and the four actions
    [startActivation], [update], [resetState] and [getState], together
    with the closure [startActivation] hands back.

    JavaScript values are modelled as follows.
    - a [number] is a finite rational, an infinity or NaN; the literals
      of the source are integers;
    - [undefined] is [None];
    - an object literal used as a patch is a record of slots, each
      either absent or present (possibly present with [undefined]);
    - arrays are mutable objects: they live in a heap and are named by
      a location, because [update] rewrites the array it is handed in
      place and then stores that same array in the state;
    - a thrown exception is the [Throw] completion. *)

From Stdlib Require Import QArith.
From stdpp Require Import base option list strings gmap.

(** ** JavaScript numbers *)

Module Number.

Inductive number : Type :=
| Fin (q : Q)              (* a finite value *)
| Inf (negative : bool)    (* +Infinity and -Infinity *)
| NaN.

Definition of_Z (z : Z) : number := Fin (inject_Z z).

(** [Number.isInteger]: finite and without fractional part. *)
Definition isInteger (x : number) : bool :=
  match x with
  | Fin q => (Qnum q mod Z.pos (Qden q) =? 0)%Z
  | Inf _ | NaN => false
  end.

(** [x <= y]; every comparison with NaN is false. *)
Definition le (x y : number) : bool :=
  match x, y with
  | NaN, _ | _, NaN => false
  | Fin p, Fin q => Qle_bool p q
  | Inf n, Inf m => n || negb m
  | Inf n, Fin _ => n
  | Fin _, Inf m => negb m
  end.

(** [x > y]. *)
Definition gt (x y : number) : bool :=
  match x, y with
  | NaN, _ | _, NaN => false
  | Fin p, Fin q => negb (Qle_bool p q)
  | Inf n, Inf m => negb n && m
  | Inf n, Fin _ => negb n
  | Fin _, Inf m => m
  end.

(** ToBoolean on a number: zero and NaN are falsy. *)
Definition truthy (x : number) : bool :=
  match x with
  | Fin q => negb (Qeq_bool q 0)
  | Inf _ => true
  | NaN => false
  end.

(** The mathematical integer a number denotes, when it denotes one. *)
Definition denotes (x : number) (z : Z) : Prop :=
  match x with
  | Fin q => (q == inject_Z z)%Q
  | Inf _ | NaN => False
  end.

End Number.

Export Number(number).

(** ** Object literals with optional keys *)

(** A key of an object literal: absent, or present with a value. *)
Inductive Slot (A : Type) : Type :=
| Absent
| Present (v : A).
Arguments Absent {A}.
Arguments Present {A} v.

(** [Object.getOwnPropertyNames(o).includes(key)]. *)
Definition has_own {A} (s : Slot A) : bool :=
  match s with Absent => false | Present _ => true end.

(** [o.key] where the key holds an [A | undefined]: reading a missing
    key gives [undefined]. *)
Definition read {A} (s : Slot (option A)) : option A :=
  match s with Absent => None | Present v => v end.

(** One key of [Object.assign({}, state, patch)]. *)
Definition assign {A} (old : A) (s : Slot A) : A :=
  match s with Absent => old | Present v => v end.

(** [a ?? b]. *)
Definition nullish {A} (a b : option A) : option A :=
  match a with Some _ => a | None => b end.

(** Arrays are heap objects named by a location. *)
Definition loc := positive.

(** ** Completions *)

Inductive Error : Type :=
| InvalidChainId (chainId : number)   (* Error(`Invalid chainId ${chainId}`) *)
| InvalidAddress (account : string).  (* whatever getAddress throws on it *)

Inductive Completion (A : Type) : Type :=
| Return (v : A)
| Throw (e : Error).
Arguments Return {A} v.
Arguments Throw {A} e.

Definition returned {A} (c : Completion A) : Prop :=
  match c with Return _ => True | Throw _ => False end.

(** [MAX_SAFE_CHAIN_ID = floor( ( 2**53 - 39 ) / 2 )]. *)
Definition MAX_SAFE_CHAIN_ID : number := Number.of_Z 4503599627370476.

Definition validateChainId (chainId : number) : Completion unit :=
  if negb (Number.isInteger chainId)
     || Number.le chainId (Number.of_Z 0)
     || Number.gt chainId MAX_SAFE_CHAIN_ID
  then Throw (InvalidChainId chainId)
  else Return tt.


Section Engine.

(** The payload types of the three in-flight markers are declared in
    the types package; the engine only stores and forwards them. *)
Context {AddingChainInfo SwitchingChainInfo WatchAssetParameters : Type}.

(** [getAddress] of @ethersproject/address: the checksummed form of
    an address, or an exception ([None]) when the string is not one. *)
Variable getAddress : string -> option string.

(** ** The state and its patches *)

Record Web3ReactState : Type := {
  chainId : option number;
  accountIndex : option number;
  accounts : option loc;
  activating : bool;
  addingChain : option AddingChainInfo;
  switchingChain : option SwitchingChainInfo;
  watchingAsset : option WatchAssetParameters;
}.

(** An object with some of the state's keys, as handed to zustand's
    [setState]. *)
Record PartialState : Type := {
  p_chainId : Slot (option number);
  p_accountIndex : Slot (option number);
  p_accounts : Slot (option loc);
  p_activating : Slot bool;
  p_addingChain : Slot (option AddingChainInfo);
  p_switchingChain : Slot (option SwitchingChainInfo);
  p_watchingAsset : Slot (option WatchAssetParameters);
}.

(** The argument of [update]. *)
Record Web3ReactStateUpdate : Type := {
  u_chainId : Slot (option number);
  u_accounts : Slot (option loc);
  u_accountIndex : Slot (option number);
  u_addingChain : Slot (option AddingChainInfo);
  u_switchingChain : Slot (option SwitchingChainInfo);
  u_watchingAsset : Slot (option WatchAssetParameters);
}.

Definition DEFAULT_STATE : Web3ReactState := {|
  chainId := None;
  accounts := None;
  accountIndex := None;
  activating := false;
  addingChain := None;
  switchingChain := None;
  watchingAsset := None;
|}.

(** An object literal naming all seven keys. *)
Definition literal (s : Web3ReactState) : PartialState := {|
  p_chainId := Present (chainId s);
  p_accountIndex := Present (accountIndex s);
  p_accounts := Present (accounts s);
  p_activating := Present (activating s);
  p_addingChain := Present (addingChain s);
  p_switchingChain := Present (switchingChain s);
  p_watchingAsset := Present (watchingAsset s);
|}.

(** [{ ...s, activating: b }]. *)
Definition with_activating (s : PartialState) (b : bool) : PartialState := {|
  p_chainId := p_chainId s;
  p_accountIndex := p_accountIndex s;
  p_accounts := p_accounts s;
  p_activating := Present b;
  p_addingChain := p_addingChain s;
  p_switchingChain := p_switchingChain s;
  p_watchingAsset := p_watchingAsset s;
|}.

(** zustand: [Object.assign({}, state, partial)]. *)
Definition merge (state : Web3ReactState) (partial : PartialState)
  : Web3ReactState := {|
  chainId := assign (chainId state) (p_chainId partial);
  accountIndex := assign (accountIndex state) (p_accountIndex partial);
  accounts := assign (accounts state) (p_accounts partial);
  activating := assign (activating state) (p_activating partial);
  addingChain := assign (addingChain state) (p_addingChain partial);
  switchingChain := assign (switchingChain state) (p_switchingChain partial);
  watchingAsset := assign (watchingAsset state) (p_watchingAsset partial);
|}.

(** ** The world: array heap, store, counter *)

(** [nullifier] is only ever incremented and compared; it is modelled
    as an unbounded natural number (a JavaScript number counts
    exactly up to 2^53, which no run reaches). *)
Record World : Type := {
  heap : gmap loc (list string);
  store : Web3ReactState;
  nullifier : N;
}.

(** The contents of the array at [l]. *)
Definition array (h : gmap loc (list string)) (l : loc) : list string :=
  default [] (h !! l).

(** Computations of the engine: they read and write the world and
    either return or throw. *)
Definition Eff (A : Type) : Type := World -> Completion A * World.

Definition ret {A} (v : A) : Eff A := fun w => (Return v, w).

Definition bind {A B} (m : Eff A) (k : A -> Eff B) : Eff B :=
  fun w =>
    match m w with
    | (Return v, w') => k v w'
    | (Throw e, w') => (Throw e, w')
    end.

Definition lift {A} (c : Completion A) : Eff A := fun w => (c, w).

Definition when (b : bool) (m : Eff unit) : Eff unit :=
  if b then m else ret tt.

(** [store.getState()]. *)
Definition store_getState : Eff Web3ReactState :=
  fun w => (Return (store w), w).

(** [store.setState(partial)] and [store.setState(fn)]: the new
    state is the old one with the keys of the patch assigned. (Handed
    the state object itself, zustand skips the assignment; the state
    holds the same values either way. Subscribers only read and are
    left out.) *)
Definition store_setState (fn : Web3ReactState -> PartialState) : Eff unit :=
  fun w =>
    (Return tt,
     {| heap := heap w;
        store := merge (store w) (fn (store w));
        nullifier := nullifier w |}).

(** [++nullifier] / [nullifier++]; the value after the increment. *)
Definition incr_nullifier : Eff N :=
  fun w =>
    (Return (nullifier w + 1)%N,
     {| heap := heap w; store := store w;
        nullifier := (nullifier w + 1)%N |}).

Definition read_nullifier : Eff N := fun w => (Return (nullifier w), w).

Notation "x <- m ;; k" := (bind m (fun x => k))
  (at level 100, m at next level, right associativity).

(** ** Validation *)

Definition validateAccount (account : string) : Completion string :=
  match getAddress account with
  | Some checksummed => Return checksummed
  | None => Throw (InvalidAddress account)
  end.

(** [for (let i = 0; i < accounts.length; i++)
       accounts[i] = validateAccount(accounts[i])]
    on the array at [l], from index [i] on.  The test [i < length] is
    the lookup succeeding; [fuel] bounds the number of iterations and
    is the length of the array when the loop is entered. *)
Fixpoint validateAccounts_from (fuel i : nat) (l : loc) : Eff unit :=
  match fuel with
  | O => ret tt
  | S fuel => fun w =>
      match array (heap w) l !! i with
      | None => (Return tt, w)
      | Some account =>
          match validateAccount account with
          | Throw e => (Throw e, w)
          | Return checksummed =>
              validateAccounts_from fuel (S i) l
                {| heap := <[l := <[i := checksummed]> (array (heap w) l)]> (heap w);
                   store := store w;
                   nullifier := nullifier w |}
          end
      end
  end.

Definition validateAccounts (l : loc) : Eff unit :=
  fun w => validateAccounts_from (length (array (heap w) l)) 0 l w.

(** ** The actions *)

(** ToBoolean of [chainId] and of [accounts] in
    [if (activating && chainId && accounts)]: [undefined] is falsy, a
    number is falsy when it is zero or NaN, an array is truthy. *)
Definition truthy_chainId (c : option number) : bool :=
  match c with Some x => Number.truthy x | None => false end.

Definition truthy_accounts (a : option loc) : bool :=
  match a with Some _ => true | None => false end.

(** The closure [startActivation] returns; it captures
    [nullifierCached]. *)
Record Cancel : Type := { nullifierCached : N }.

Definition cancelActivation (c : Cancel) : Eff Web3ReactState :=
  n <- read_nullifier ;;
  _ <- when (n =? nullifierCached c)%N
         (store_setState (fun _ =>
            {| p_chainId := Absent;
               p_accountIndex := Absent;
               p_accounts := Absent;
               p_activating := Present false;
               p_addingChain := Present None;
               p_switchingChain := Present None;
               p_watchingAsset := Absent |})) ;;
  store_getState.

Definition startActivation : Eff Cancel :=
  cached <- incr_nullifier ;;
  _ <- store_setState (fun _ => with_activating (literal DEFAULT_STATE) true) ;;
  ret {| nullifierCached := cached |}.

(** The function [update] passes to [store.setState]. *)
Definition updater (stateUpdate : Web3ReactStateUpdate)
    (existingState : Web3ReactState) : Web3ReactState :=
  let chainId' := nullish (read (u_chainId stateUpdate)) (chainId existingState) in
  let accounts' := nullish (read (u_accounts stateUpdate)) (accounts existingState) in
  let activating' :=
    if activating existingState && truthy_chainId chainId' && truthy_accounts accounts'
    then false
    else activating existingState in
  let accountIndex' :=
    if has_own (u_accountIndex stateUpdate)
    then read (u_accountIndex stateUpdate)
    else accountIndex existingState in
  let addingChain' :=
    if has_own (u_addingChain stateUpdate)
    then read (u_addingChain stateUpdate)
    else addingChain existingState in
  let switchingChain' :=
    if has_own (u_switchingChain stateUpdate)
    then read (u_switchingChain stateUpdate)
    else switchingChain existingState in
  let watchingAsset' :=
    if has_own (u_watchingAsset stateUpdate)
    then read (u_watchingAsset stateUpdate)
    else watchingAsset existingState in
  {| chainId := chainId';
     accountIndex := accountIndex';
     accounts := accounts';
     activating := activating';
     addingChain := addingChain';
     switchingChain := switchingChain';
     watchingAsset := watchingAsset' |}.

Definition update (stateUpdate : Web3ReactStateUpdate) (skipValidation : bool)
  : Eff Web3ReactState :=
  _ <- match read (u_chainId stateUpdate) with
       | Some c => when (negb skipValidation) (lift (validateChainId c))
       | None => ret tt
       end ;;
  _ <- match read (u_accounts stateUpdate) with
       | Some l => when (negb skipValidation) (validateAccounts l)
       | None => ret tt
       end ;;
  _ <- incr_nullifier ;;
  _ <- store_setState (fun existingState =>
         literal (updater stateUpdate existingState)) ;;
  store_getState.

Definition resetState : Eff Web3ReactState :=
  _ <- incr_nullifier ;;
  _ <- store_setState (fun _ => literal DEFAULT_STATE) ;;
  ret DEFAULT_STATE.

Definition getState : Eff Web3ReactState := store_getState.

(** The world [createWeb3ReactStoreAndActions] starts from, over the
    arrays that already exist. *)
Definition initial (h : gmap loc (list string)) : World :=
  {| heap := h; store := DEFAULT_STATE; nullifier := 0 |}.

(** ** Runs of the engine *)

(** What a connector can do with the engine: call one of the four
    actions, or call a closure some earlier [startActivation] gave it. *)
Inductive Call : Type :=
| CallStartActivation
| CallUpdate (stateUpdate : Web3ReactStateUpdate) (skipValidation : bool)
| CallResetState
| CallGetState
| CallCancel (c : Cancel).

(** The world a call leaves behind (its result, or the exception it
    throws, goes to the caller). *)
Definition exec (call : Call) (w : World) : World :=
  match call with
  | CallStartActivation => snd (startActivation w)
  | CallUpdate stateUpdate skipValidation => snd (update stateUpdate skipValidation w)
  | CallResetState => snd (resetState w)
  | CallGetState => snd (getState w)
  | CallCancel c => snd (cancelActivation c w)
  end.

Definition run (calls : list Call) (w : World) : World :=
  foldl (fun w call => exec call w) w calls.

(** The calls that, by the source's comment on [nullifier], count as
    something having happened since an activation began: another
    [startActivation], an [update] that returns, a [resetState]. *)
Definition advances (call : Call) (w : World) : Prop :=
  match call with
  | CallStartActivation | CallResetState => True
  | CallUpdate stateUpdate skipValidation =>
      returned (fst (update stateUpdate skipValidation w))
  | CallGetState | CallCancel _ => False
  end.

(** ** Notions used in the statements *)

(** The chain ids [validateChainId] lets through: the integers from 1
    to 4503599627370476. *)
Definition chain_id_in_bounds (c : number) : Prop :=
  exists z : Z, Number.denotes c z /\ (0 < z <= 4503599627370476)%Z.

(** What an effective cancellation writes. *)
Definition cancelled (s : Web3ReactState) : Web3ReactState :=
  {| chainId := chainId s; accountIndex := accountIndex s;
     accounts := accounts s; activating := false;
     addingChain := None; switchingChain := None;
     watchingAsset := watchingAsset s |}.

(** The contents the loop leaves in an array that held [a], and the
    exception it ends with, if any: entries are replaced from the left
    up to the first one [getAddress] rejects. *)
Fixpoint checksum_prefix (a : list string) : list string * option Error :=
  match a with
  | [] => ([], None)
  | account :: rest =>
      match getAddress account with
      | None => (a, Some (InvalidAddress account))
      | Some checksummed =>
          (checksummed :: fst (checksum_prefix rest), snd (checksum_prefix rest))
      end
  end.

Definition outcome (e : option Error) : Completion unit :=
  match e with None => Return tt | Some e => Throw e end.

(** The two validation steps of [update], named. *)
Definition chainId_step (stateUpdate : Web3ReactStateUpdate)
    (skipValidation : bool) : Completion unit :=
  match read (u_chainId stateUpdate) with
  | Some c => if negb skipValidation then validateChainId c else Return tt
  | None => Return tt
  end.

Definition accounts_step (stateUpdate : Web3ReactStateUpdate)
    (skipValidation : bool) : Eff unit :=
  match read (u_accounts stateUpdate) with
  | Some l => when (negb skipValidation) (validateAccounts l)
  | None => ret tt
  end.

End Engine.

(** * A sample connector

    Concrete worlds on which the statements above are exercised. The
    in-flight markers carry a name, and [sample_getAddress] stands for
    ethers' [getAddress] on the three strings used here: an address
    in lower case, its checksummed spelling (the first test vector of
    EIP-55), and a string that is no address at all. *)

Definition lower_case_address : string :=
  "0x5aaeb6053f3e94c9b9a09f33669435e7ef1beaed".

Definition checksummed_address : string :=
  "0x5aAeb6053F3E94C9b9A09f33669435E7Ef1BeAed".

Definition not_an_address : string := "not an address".

Definition sample_getAddress (account : string) : option string :=
  if String.eqb account lower_case_address then Some checksummed_address
  else if String.eqb account checksummed_address then Some checksummed_address
  else None.

Definition sample_state : Type := @Web3ReactState string string string.
Definition sample_world : Type := @World string string string.
Definition sample_update : Type := @Web3ReactStateUpdate string string string.

(** Three arrays a connector holds: two good addresses, a good one
    followed by a bad one, and no address at all. *)
Definition sample_heap : gmap loc (list string) :=
  {[ 1%positive := [lower_case_address; checksummed_address];
     2%positive := [lower_case_address; not_an_address];
     3%positive := [] ]}.

Definition fresh_world : sample_world := initial sample_heap.

(** The world after [startActivation()] on a fresh engine. *)
Definition activating_world : sample_world := snd (startActivation fresh_world).

(** A connected state in the middle of adding a chain. *)
Definition busy_world : sample_world :=
  {| heap := sample_heap;
     store := {| chainId := Some (Number.of_Z 1);
                 accountIndex := Some (Number.of_Z 0);
                 accounts := Some 1%positive;
                 activating := true;
                 addingChain := Some "0x38";
                 switchingChain := Some "0x1";
                 watchingAsset := Some "DAI" |};
     nullifier := 7 |}.

(** Some patches. [{ chainId: c }] *)
Definition chainId_update (c : number) : sample_update :=
  {| u_chainId := Present (Some c); u_accounts := Absent;
     u_accountIndex := Absent; u_addingChain := Absent;
     u_switchingChain := Absent; u_watchingAsset := Absent |}.

(** [{ accounts: l }] *)
Definition accounts_update (l : loc) : sample_update :=
  {| u_chainId := Absent; u_accounts := Present (Some l);
     u_accountIndex := Absent; u_addingChain := Absent;
     u_switchingChain := Absent; u_watchingAsset := Absent |}.

(** [{ chainId: c, accounts: l }] *)
Definition connect_update (c : number) (l : loc) : sample_update :=
  {| u_chainId := Present (Some c); u_accounts := Present (Some l);
     u_accountIndex := Absent; u_addingChain := Absent;
     u_switchingChain := Absent; u_watchingAsset := Absent |}.

(** [{ accountIndex: undefined, addingChain: undefined }] *)
Definition clearing_update : sample_update :=
  {| u_chainId := Absent; u_accounts := Absent;
     u_accountIndex := Present None; u_addingChain := Present None;
     u_switchingChain := Absent; u_watchingAsset := Absent |}.

(** [{ chainId: undefined, accounts: undefined }] *)
Definition unsetting_update : sample_update :=
  {| u_chainId := Present None; u_accounts := Present None;
     u_accountIndex := Absent; u_addingChain := Absent;
     u_switchingChain := Absent; u_watchingAsset := Absent |}.

(** The closure [startActivation()] returns on a fresh engine. *)
Definition first_cancel : Cancel := {| nullifierCached := 1 |}.

(** The world after [update({ accounts: a }, true)] on a fresh engine,
    [a] being the array of a lower-case address followed by a string
    that is no address: the state now holds [a] itself. *)
Definition aliased_world : sample_world :=
  snd (update sample_getAddress (accounts_update 2%positive) true fresh_world).

(** * Around the engine: the hooks and the connectors

    The read side (the hooks of the core package, which select from
    the store and derive [useAccount], [useIsActive] and the selected
    and priority variants) and the write side (the EIP-1193 and BSC
    connectors, which call the actions from provider events and from
    the handlers of their activation promises). *)

(** ** More of JavaScript's numbers *)

(** [x === y] on numbers. *)
Definition strict_equal (x y : number) : bool :=
  match x, y with
  | Number.Fin p, Number.Fin q => Qeq_bool p q
  | Number.Inf n, Number.Inf m => Bool.eqb n m
  | _, _ => false
  end.

(** [x >= y]. *)
Definition greater_equal (x y : number) : bool := Number.le y x.

(** [a[x]] for an array [a] and a number [x]: the entry when [x] is
    an integer index inside the array, [undefined] for every other
    key. *)
Definition element (a : list string) (x : number) : option string :=
  match x with
  | Number.Fin q =>
      if Number.isInteger x && Number.le (Number.of_Z 0) x
      then a !! Z.to_nat (Qnum q / Z.pos (Qden q))
      else None
  | Number.Inf _ | Number.NaN => None
  end.

(** [Array.prototype.findIndex], with [None] for -1. *)
Fixpoint findIndex {A : Type} (p : A -> bool) (l : list A) : option nat :=
  match l with
  | [] => None
  | x :: rest => if p x then Some 0 else S <$> findIndex p rest
  end.

(** [Array.prototype.every] with the index passed along. *)
Fixpoint every_from {A : Type} (p : A -> nat -> bool) (i : nat) (l : list A)
  : bool :=
  match l with
  | [] => true
  | x :: rest => p x i && every_from p (S i) rest
  end.

(** What the layers around the engine throw or reject with. *)
Inductive Thrown : Type :=
| EngineError (e : Error)              (* thrown by [update] *)
| ConnectorNotFound                    (* Error('Connector not found') *)
| TypeError                            (* reading [0] of [undefined] *)
| NoAccountsReturned                   (* Error('No accounts returned') *)
| ProviderRejected (reason : string).  (* a request of the wallet rejected *)

Inductive Outcome (A : Type) : Type :=
| Done (v : A)
| Failed (e : Thrown).
Arguments Done {A} v.
Arguments Failed {A} e.

Section Layers.

Context {AddingChainInfo SwitchingChainInfo WatchAssetParameters : Type}.
Variable getAddress : string -> option string.

(** [parseChainId] of the [Connector] base class (types package): it
    turns the chain id a provider reports into a number. *)
Variable parseChainId : string -> number.

Local Abbreviation Web3ReactState :=
  (@Web3ReactState AddingChainInfo SwitchingChainInfo WatchAssetParameters).
Local Abbreviation Web3ReactStateUpdate :=
  (@Web3ReactStateUpdate AddingChainInfo SwitchingChainInfo WatchAssetParameters).
Local Abbreviation World :=
  (@World AddingChainInfo SwitchingChainInfo WatchAssetParameters).
Local Abbreviation Eff :=
  (@Eff AddingChainInfo SwitchingChainInfo WatchAssetParameters).

(** ** State hooks

    A hook [useStore(store, selector)] yields [selector(state)] for
    the state at the time of the render; it is read here as a function
    of the world. Arrays are read by their contents. *)

Definition useChainId (w : World) : option number := chainId (store w).

(** Selector [({ accounts }) => accounts ?? []]. *)
Definition useAccounts (w : World) : list string :=
  match accounts (store w) with
  | Some l => array (heap w) l
  | None => []
  end.

(** The equality checker [useAccounts] hands to [useStore]:
    [(old === undefined && new === undefined) ||
     (old !== undefined && old.length === new?.length &&
      old.every((oldAccount, i) => oldAccount === new[i]))]. *)
Definition accounts_equality_checker (oldAccounts newAccounts : option (list string))
  : bool :=
  match oldAccounts with
  | None => match newAccounts with None => true | Some _ => false end
  | Some old =>
      match newAccounts with
      | None => false
      | Some new =>
          (length old =? length new) &&
          every_from
            (fun oldAccount i =>
               match new !! i with
               | Some newAccount => String.eqb oldAccount newAccount
               | None => false
               end)
            0 old
      end
  end.

Definition useAccountIndex (w : World) : option number := accountIndex (store w).

Definition useIsActivating (w : World) : bool := activating (store w).

(** ** Derived hooks *)

(** [accounts?.length && (accountIndex || accountIndex === 0) &&
     accountIndex >= 0 ? accounts?.[accountIndex] : undefined] *)
Definition useAccount (w : World) : option string :=
  let accounts := useAccounts w in
  let accountIndex := useAccountIndex w in
  if negb (length accounts =? 0)
     && (truthy_chainId accountIndex
         || match accountIndex with
            | Some x => strict_equal x (Number.of_Z 0)
            | None => false
            end)
     && match accountIndex with
        | Some x => greater_equal x (Number.of_Z 0)
        | None => false
        end
  then match accountIndex with
       | Some x => element accounts x
       | None => None
       end
  else None.

(** [Boolean(chainId && accounts && !activating)] on a partial state:
    each of the three may be missing. *)
Definition computeIsActive (chainId : option number)
    (accounts : option (list string)) (activating : option bool) : bool :=
  truthy_chainId chainId
  && match accounts with Some _ => true | None => false end
  && negb (match activating with Some b => b | None => false end).

Definition useIsActive (w : World) : bool :=
  let chainId := useChainId w in
  let accounts := useAccounts w in
  let activating := useIsActivating w in
  computeIsActive chainId (Some accounts) (Some activating).

(** ** Selected and priority hooks

    [initializedConnectors] pairs each connector with its hooks, that
    is with the world those hooks read. Connectors are compared with
    [===]. *)

Context {Connector : Type} `{EqDecision Connector}.

Definition getIndex (initializedConnectors : list (Connector * World))
    (connector : Connector) : Outcome nat :=
  match findIndex (fun ic => bool_decide (connector = fst ic))
          initializedConnectors with
  | None => Failed ConnectorNotFound
  | Some index => Done index
  end.

(** [values[getIndex(connector)]] after
    [values = initializedConnectors.map(([, hooks]) => hook())]; an
    index outside [values] would read [undefined]. *)
Definition useSelectedChainId (initializedConnectors : list (Connector * World))
    (connector : Connector) : Outcome (option number) :=
  let values := map (fun ic => useChainId (snd ic)) initializedConnectors in
  match getIndex initializedConnectors connector with
  | Failed e => Failed e
  | Done index => Done (mjoin (values !! index))
  end.

Definition useSelectedAccount (initializedConnectors : list (Connector * World))
    (connector : Connector) : Outcome (option string) :=
  let values := map (fun ic => useAccount (snd ic)) initializedConnectors in
  match getIndex initializedConnectors connector with
  | Failed e => Failed e
  | Done index => Done (mjoin (values !! index))
  end.

Definition useSelectedIsActive (initializedConnectors : list (Connector * World))
    (connector : Connector) : Outcome (option bool) :=
  let values := map (fun ic => useIsActive (snd ic)) initializedConnectors in
  match getIndex initializedConnectors connector with
  | Failed e => Failed e
  | Done index => Done (values !! index)
  end.

(** [initializedConnectors[index === -1 ? 0 : index][0]], [index]
    being that of the first active connector. *)
Definition usePriorityConnector (initializedConnectors : list (Connector * World))
  : Outcome Connector :=
  let values := map (fun ic => useIsActive (snd ic)) initializedConnectors in
  let index := findIndex (fun isActive : bool => isActive) values in
  match initializedConnectors !! (match index with None => 0 | Some i => i end) with
  | Some ic => Done (fst ic)
  | None => Failed TypeError
  end.

Definition usePriorityChainId (initializedConnectors : list (Connector * World))
  : Outcome (option number) :=
  match usePriorityConnector initializedConnectors with
  | Failed e => Failed e
  | Done connector => useSelectedChainId initializedConnectors connector
  end.

Definition usePriorityIsActive (initializedConnectors : list (Connector * World))
  : Outcome (option bool) :=
  match usePriorityConnector initializedConnectors with
  | Failed e => Failed e
  | Done connector => useSelectedIsActive initializedConnectors connector
  end.

(** ** The EIP-1193 connector *)

(** [{ chainId: this.parseChainId(chainId) }] *)
Definition chainId_patch (chainId : string) : Web3ReactStateUpdate :=
  {| u_chainId := Present (Some (parseChainId chainId));
     u_accounts := Absent; u_accountIndex := Absent; u_addingChain := Absent;
     u_switchingChain := Absent; u_watchingAsset := Absent |}.

(** [{ accounts }] *)
Definition accounts_patch (accounts : loc) : Web3ReactStateUpdate :=
  {| u_chainId := Absent; u_accounts := Present (Some accounts);
     u_accountIndex := Absent; u_addingChain := Absent;
     u_switchingChain := Absent; u_watchingAsset := Absent |}.

(** [{ chainId: this.parseChainId(chainId), accounts }] *)
Definition connection_patch (chainId : string) (accounts : loc)
  : Web3ReactStateUpdate :=
  {| u_chainId := Present (Some (parseChainId chainId));
     u_accounts := Present (Some accounts);
     u_accountIndex := Absent; u_addingChain := Absent;
     u_switchingChain := Absent; u_watchingAsset := Absent |}.

(** The listeners the constructor registers: 'connect' and
    'chainChanged', 'disconnect', 'accountsChanged'. *)
Definition eip1193_onChainChanged (chainId : string) : Eff Web3ReactState :=
  update getAddress (chainId_patch chainId) false.

Definition eip1193_onDisconnect : Eff Web3ReactState := resetState.

Definition eip1193_onAccountsChanged (accounts : loc) : Eff Web3ReactState :=
  update getAddress (accounts_patch accounts) false.

(** How [Promise.all] of the two wallet requests settles. *)
Inductive Reply : Type :=
| Fulfilled (chainId : string) (accounts : loc)
| Rejected (reason : string).

(** [connectEagerly] and [activate] both start with
    [const cancelActivation = this.actions.startActivation()]. *)
Definition eip1193_start : Eff Cancel := startActivation.

(** ... and both end, once the requests have settled, with
    [.then(([chainId, accounts]) => update({ chainId, accounts }))
     .catch((error) => { cancelActivation(); throw error })],
    read here without another job running between the two handlers. *)
Definition eip1193_settle (cancelActivation' : Cancel) (reply : Reply) (w : World)
  : Outcome Web3ReactState * World :=
  match reply with
  | Fulfilled chainId accounts =>
      match update getAddress (connection_patch chainId accounts) false w with
      | (Return state, w') => (Done state, w')
      | (Throw e, w') =>
          (Failed (EngineError e), snd (cancelActivation cancelActivation' w'))
      end
  | Rejected reason =>
      (Failed (ProviderRejected reason), snd (cancelActivation cancelActivation' w))
  end.

(** ** The BSC wallet connector *)

(** [{ accounts, accountIndex: accounts?.length ? 0 : undefined }],
    with or without [chainId]. *)
Definition bsc_patch (chainId : option string) (accounts : loc) (w : World)
  : Web3ReactStateUpdate :=
  {| u_chainId :=
       match chainId with
       | Some c => Present (Some (parseChainId c))
       | None => Absent
       end;
     u_accounts := Present (Some accounts);
     u_accountIndex :=
       Present (if negb (length (array (heap w) accounts) =? 0)
                then Some (Number.of_Z 0) else None);
     u_addingChain := Absent; u_switchingChain := Absent;
     u_watchingAsset := Absent |}.

(** The 'accountsChanged' listener:
    [if (accounts.length === 0) resetState() else update(...)]. *)
Definition bsc_onAccountsChanged (accounts : loc) : Eff Web3ReactState :=
  fun w =>
    if length (array (heap w) accounts) =? 0
    then resetState w
    else update getAddress (bsc_patch None accounts w) false w.

(** The handlers of [connectEagerly]: the reply is stored only when
    it has accounts, and every failure ends in
    [return cancelActivation()]. *)
Definition bsc_connectEagerly_settle (cancelActivation' : Cancel) (reply : Reply)
    (w : World) : Outcome Web3ReactState * World :=
  match reply with
  | Fulfilled chainId accounts =>
      if negb (length (array (heap w) accounts) =? 0)
      then
        match update getAddress (bsc_patch (Some chainId) accounts w) false w with
        | (Return state, w') => (Done state, w')
        | (Throw e, w') =>
            match cancelActivation cancelActivation' w' with
            | (Return state, w'') => (Done state, w'')
            | (Throw e', w'') => (Failed (EngineError e'), w'')
            end
        end
      else
        match cancelActivation cancelActivation' w with
        | (Return state, w') => (Done state, w')
        | (Throw e', w') => (Failed (EngineError e'), w')
        end
  | Rejected reason =>
      match cancelActivation cancelActivation' w with
      | (Return state, w') => (Done state, w')
      | (Throw e', w') => (Failed (EngineError e'), w')
      end
  end.

(** [activate] starts an activation unless the provider says it is
    connected: [isConnected?.() ? null : startActivation()]. *)
Definition bsc_activate_start (isConnected : bool) : Eff (option Cancel) :=
  fun w =>
    if isConnected then (Return None, w)
    else match startActivation w with
         | (Return c, w') => (Return (Some c), w')
         | (Throw e, w') => (Throw e, w')
         end.

(** Its handlers store the reply whatever its accounts, and on
    failure run [cancelActivation?.()] and rethrow. *)
Definition bsc_activate_settle (cancelActivation' : option Cancel) (reply : Reply)
    (w : World) : Outcome Web3ReactState * World :=
  let cancel (w : World) : World :=
    match cancelActivation' with
    | Some c => snd (cancelActivation c w)
    | None => w
    end in
  match reply with
  | Fulfilled chainId accounts =>
      match update getAddress (bsc_patch (Some chainId) accounts w) false w with
      | (Return state, w') => (Done state, w')
      | (Throw e, w') => (Failed (EngineError e), cancel w')
      end
  | Rejected reason => (Failed (ProviderRejected reason), cancel w)
  end.

(** ** Notions used in the statements about runs *)

(** A run in which no [update] skips validation. *)
Definition validating (call : @Call AddingChainInfo SwitchingChainInfo WatchAssetParameters)
  : Prop :=
  match call with
  | CallUpdate _ skipValidation => skipValidation = false
  | _ => True
  end.

(** A call other than [startActivation]. *)
Definition not_activation (call : @Call AddingChainInfo SwitchingChainInfo WatchAssetParameters)
  : Prop :=
  match call with
  | CallStartActivation => False
  | _ => True
  end.

(** A number that is truthy: neither zero nor NaN. *)
Definition nonzero (x : number) : Prop :=
  x <> Number.NaN /\ ~ Number.denotes x 0.

(** A string [getAddress] returns for some input. *)
Definition is_checksummed (account : string) : Prop :=
  exists supplied : string, getAddress supplied = Some account.

(** [getAddress] returns its own results unchanged: a checksummed
    address passes validation and is its own checksummed form. *)
Definition getAddress_idempotent : Prop :=
  forall supplied checksummed : string,
    getAddress supplied = Some checksummed ->
    getAddress checksummed = Some checksummed.

End Layers.

(** ** More of the sample connector

    [sample_parseChainId] stands for [parseChainId] on the two chain
    ids used here, as a provider reports them in hexadecimal. *)

Definition sample_parseChainId (chainId : string) : number :=
  if String.eqb chainId "0x38" then Number.of_Z 56
  else if String.eqb chainId "0x1" then Number.of_Z 1
  else Number.NaN.

(** The world after an activation that the wallet answered with chain
    56 and the two good addresses. *)
Definition connected_world : sample_world :=
  run sample_getAddress
    [CallStartActivation;
     CallUpdate (connect_update (Number.of_Z 56) 1%positive) false]
    fresh_world.

(** Three connectors, numbered, with the worlds their hooks read: an
    idle one, a connected one, and one still activating. *)
Definition sample_connectors : list (nat * sample_world) :=
  [(1, fresh_world); (2, connected_world); (3, busy_world)].

(** The connected connector listed a second time, behind an idle
    entry of its own. *)
Definition doubled_connectors : list (nat * sample_world) :=
  [(2, fresh_world); (2, connected_world)].

(** * Properties of the engine *)

Section Properties.

Context {AddingChainInfo SwitchingChainInfo WatchAssetParameters : Type}.
Variable getAddress : string -> option string.

Local Abbreviation Web3ReactState :=
  (@Web3ReactState AddingChainInfo SwitchingChainInfo WatchAssetParameters).
Local Abbreviation Web3ReactStateUpdate :=
  (@Web3ReactStateUpdate AddingChainInfo SwitchingChainInfo WatchAssetParameters).
Local Abbreviation World :=
  (@World AddingChainInfo SwitchingChainInfo WatchAssetParameters).
Local Abbreviation Call :=
  (@Call AddingChainInfo SwitchingChainInfo WatchAssetParameters).
Local Abbreviation Eff :=
  (@Eff AddingChainInfo SwitchingChainInfo WatchAssetParameters).

(** ** Facts about chain-id validation *)

Lemma isInteger_denotes (c : number) :
  Number.isInteger c = true <-> exists z : Z, Number.denotes c z.
Proof.
  destruct c as [[n d]|b|]; simpl.
  2,3: split; [discriminate | intros [z Hz]; destruct Hz].
  unfold Qeq; simpl. rewrite Z.eqb_eq. split.
  - intros H. exists (n / Z.pos d)%Z.
    apply Z_div_exact_2 in H; lia.
  - intros [z Hz]. rewrite Z.mul_1_r in Hz. subst n. apply Z_mod_mult.
Qed.

Lemma validateChainId_Return (c : number) :
  validateChainId c = Return tt <-> chain_id_in_bounds c.
Proof.
  unfold validateChainId, chain_id_in_bounds.
  destruct (Number.isInteger c) eqn:Hint; simpl.
  - apply isInteger_denotes in Hint as [z Hz].
    destruct c as [[n d]| |]; simpl in *; try contradiction.
    unfold Qeq in Hz; simpl in Hz. rewrite Z.mul_1_r in Hz. subst n.
    unfold Qle_bool; simpl. rewrite Z.mul_1_r.
    destruct (Z.leb_spec (z * Z.pos d) (0 * Z.pos d)) as [Hle|Hlt]; simpl.
    { split; [discriminate|].
      intros (z' & Hz' & Hb). unfold Qeq in Hz'; simpl in Hz'. nia. }
    destruct (Z.leb_spec (z * Z.pos d) (4503599627370476 * Z.pos d))
      as [Hle|Hgt]; simpl.
    { split; [|reflexivity]. intros _. exists z.
      split; [unfold Qeq; simpl; lia | nia]. }
    split; [discriminate|].
    intros (z' & Hz' & Hb). unfold Qeq in Hz'; simpl in Hz'. nia.
  - split; [discriminate|]. intros (z & Hz & _).
    assert (Number.isInteger c = true) by (apply isInteger_denotes; eauto).
    congruence.
Qed.

Lemma validateChainId_Throw (c : number) :
  ~ chain_id_in_bounds c -> validateChainId c = Throw (InvalidChainId c).
Proof.
  intros H. destruct (validateChainId c) as [[]|e] eqn:E.
  - apply validateChainId_Return in E. contradiction.
  - unfold validateChainId in E.
    destruct (_ || _); [congruence | discriminate].
Qed.

(** ** Basic equations of the store and the actions *)

Lemma world_eta (w : World) :
  {| heap := heap w; store := store w; nullifier := nullifier w |} = w.
Proof. destruct w; reflexivity. Qed.

Lemma merge_literal (s s' : Web3ReactState) : merge s (literal s') = s'.
Proof. destruct s'; reflexivity. Qed.

(** The state an activation starts from:
    [{ ...DEFAULT_STATE, activating: true }] over any state. *)
Lemma merge_activating (s : Web3ReactState) :
  merge s (with_activating (literal DEFAULT_STATE) true) =
  {| chainId := None; accountIndex := None; accounts := None;
     activating := true; addingChain := None; switchingChain := None;
     watchingAsset := None |}.
Proof. reflexivity. Qed.

Lemma startActivation_eq (w : World) :
  startActivation w =
  (Return {| nullifierCached := (nullifier w + 1)%N |},
   {| heap := heap w;
      store := merge (store w) (with_activating (literal DEFAULT_STATE) true);
      nullifier := (nullifier w + 1)%N |}).
Proof. reflexivity. Qed.

Lemma resetState_eq (w : World) :
  resetState w =
  (Return DEFAULT_STATE,
   {| heap := heap w; store := DEFAULT_STATE; nullifier := (nullifier w + 1)%N |}).
Proof. reflexivity. Qed.

Lemma cancelActivation_current (c : Cancel) (w : World) :
  nullifier w = nullifierCached c ->
  cancelActivation c w =
  (Return (cancelled (store w)),
   {| heap := heap w; store := cancelled (store w); nullifier := nullifier w |}).
Proof.
  intros H. unfold cancelActivation, bind, read_nullifier, when.
  simpl. rewrite <- H, N.eqb_refl. reflexivity.
Qed.

Lemma cancelActivation_stale (c : Cancel) (w : World) :
  nullifier w <> nullifierCached c ->
  cancelActivation c w = (Return (store w), w).
Proof.
  intros H. unfold cancelActivation, bind, read_nullifier, when.
  simpl. apply N.eqb_neq in H. rewrite H. reflexivity.
Qed.

(** The closure either finds the counter as it captured it, or not. *)
Ltac cancel_cases c w :=
  let H := fresh "Hcached" in
  destruct (N.eq_dec (nullifier w) (nullifierCached c)) as [H|H];
  [ rewrite (cancelActivation_current c w H)
  | rewrite (cancelActivation_stale c w H) ].

(** ** The loop over the supplied array *)

Lemma validateAccounts_from_spec (l : loc) (todo : list string) :
  forall (done : list string) (fuel : nat) (w : World),
    heap w !! l = Some (done ++ todo) ->
    length todo <= fuel ->
    validateAccounts_from getAddress fuel (length done) l w =
    (outcome (snd (checksum_prefix getAddress todo)),
     {| heap := <[l := done ++ fst (checksum_prefix getAddress todo)]> (heap w);
        store := store w;
        nullifier := nullifier w |}).
Proof.
  induction todo as [|account rest IH]; intros done fuel w Hl Hfuel.
  - assert (validateAccounts_from getAddress fuel (length done) l w = (Return tt, w)) as ->.
    { destruct fuel; [reflexivity|]. simpl. unfold array. rewrite Hl. simpl.
      rewrite app_nil_r, lookup_ge_None_2 by lia. reflexivity. }
    simpl. rewrite insert_id by exact Hl. by rewrite world_eta.
  - destruct fuel as [|fuel]; [simpl in Hfuel; lia|].
    simpl. unfold array at 1. rewrite Hl. simpl.
    rewrite list_lookup_middle by reflexivity.
    unfold validateAccount. destruct (getAddress account) as [c|] eqn:Hc.
    + replace (S (length done)) with (length (done ++ [c]))
        by (rewrite length_app; simpl; lia).
      rewrite (IH (done ++ [c])); simpl.
      * rewrite insert_insert_eq, <- app_assoc. reflexivity.
      * rewrite lookup_insert_eq. unfold array. rewrite Hl. simpl.
        rewrite insert_app_r_alt, Nat.sub_diag by lia. simpl.
        by rewrite <- app_assoc.
      * simpl in Hfuel. lia.
    + simpl. rewrite insert_id by exact Hl. by rewrite world_eta.
Qed.

Lemma validateAccounts_eq (l : loc) (w : World) :
  validateAccounts getAddress l w =
  (outcome (snd (checksum_prefix getAddress (array (heap w) l))),
   {| heap := match heap w !! l with
              | Some a => <[l := fst (checksum_prefix getAddress a)]> (heap w)
              | None => heap w
              end;
      store := store w;
      nullifier := nullifier w |}).
Proof.
  unfold validateAccounts, array.
  destruct (heap w !! l) as [a|] eqn:Hl; simpl.
  - apply (validateAccounts_from_spec l a [] (length a) w); [exact Hl | lia].
  - by rewrite world_eta.
Qed.

(** ** The shape of [update] *)

Lemma accounts_step_frame (stateUpdate : Web3ReactStateUpdate)
    (skipValidation : bool) (w : World) :
  store (snd (accounts_step getAddress stateUpdate skipValidation w)) = store w /\
  nullifier (snd (accounts_step getAddress stateUpdate skipValidation w)) = nullifier w.
Proof.
  unfold accounts_step. destruct (read (u_accounts stateUpdate)) as [l|];
    [destruct skipValidation; simpl|]; try (split; reflexivity).
  rewrite validateAccounts_eq. split; reflexivity.
Qed.

Lemma bind_eq {A B : Type} (m : Eff A) (k : A -> Eff B) (w : World) :
  bind m k w =
  match fst (m w) with
  | Return v => k v (snd (m w))
  | Throw e => (Throw e, snd (m w))
  end.
Proof. unfold bind. destruct (m w) as [[v|e] w']; reflexivity. Qed.

Lemma update_eq (stateUpdate : Web3ReactStateUpdate) (skipValidation : bool)
    (w : World) :
  update getAddress stateUpdate skipValidation w =
  match chainId_step stateUpdate skipValidation with
  | Throw e => (Throw e, w)
  | Return _ =>
      let w1 := snd (accounts_step getAddress stateUpdate skipValidation w) in
      match fst (accounts_step getAddress stateUpdate skipValidation w) with
      | Throw e => (Throw e, w1)
      | Return _ =>
          (Return (updater stateUpdate (store w)),
           {| heap := heap w1;
              store := updater stateUpdate (store w);
              nullifier := (nullifier w + 1)%N |})
      end
  end.
Proof.
  pose proof (accounts_step_frame stateUpdate skipValidation w) as [Hs Hn].
  unfold update. fold (accounts_step getAddress stateUpdate skipValidation).
  rewrite bind_eq.
  assert ((match read (u_chainId stateUpdate) with
           | Some c => when (negb skipValidation) (lift (validateChainId c))
           | None => ret tt
           end) w = (chainId_step stateUpdate skipValidation, w)) as ->.
  { unfold chainId_step. destruct (read (u_chainId stateUpdate)); [|reflexivity].
    destruct skipValidation; reflexivity. }
  simpl. destruct (chainId_step stateUpdate skipValidation) as [[]|e];
    [|reflexivity].
  rewrite bind_eq.
  destruct (fst (accounts_step getAddress stateUpdate skipValidation w)) as [[]|e];
    [|reflexivity].
  unfold bind, incr_nullifier, store_setState, store_getState; simpl.
  rewrite merge_literal, Hs, Hn. reflexivity.
Qed.

(** With validation skipped [update] always returns. *)
Lemma update_skipValidation (stateUpdate : Web3ReactStateUpdate) (w : World) :
  update getAddress stateUpdate true w =
  (Return (updater stateUpdate (store w)),
   {| heap := heap w;
      store := updater stateUpdate (store w);
      nullifier := (nullifier w + 1)%N |}).
Proof.
  rewrite update_eq. unfold chainId_step, accounts_step.
  destruct (read (u_chainId stateUpdate)), (read (u_accounts stateUpdate));
    reflexivity.
Qed.

Lemma update_Return (stateUpdate : Web3ReactStateUpdate)
    (skipValidation : bool) (w w' : World) (st : Web3ReactState) :
  update getAddress stateUpdate skipValidation w = (Return st, w') ->
  st = updater stateUpdate (store w) /\
  store w' = st /\
  nullifier w' = (nullifier w + 1)%N.
Proof.
  rewrite update_eq.
  destruct (chainId_step stateUpdate skipValidation); [|discriminate].
  simpl. destruct (fst (accounts_step getAddress stateUpdate skipValidation w));
    [|discriminate].
  intros [= <- <-]. auto.
Qed.

Lemma update_Throw (stateUpdate : Web3ReactStateUpdate)
    (skipValidation : bool) (w w' : World) (e : Error) :
  update getAddress stateUpdate skipValidation w = (Throw e, w') ->
  store w' = store w /\ nullifier w' = nullifier w.
Proof.
  rewrite update_eq.
  destruct (chainId_step stateUpdate skipValidation).
  - simpl. destruct (fst (accounts_step getAddress stateUpdate skipValidation w));
      [discriminate|].
    intros [= _ <-]. apply accounts_step_frame.
  - intros [= _ <-]. auto.
Qed.

(** ** The counter along a run *)

Lemma exec_nullifier_mono (call : Call) (w : World) :
  (nullifier w <= nullifier (exec getAddress call w))%N.
Proof.
  destruct call as [|stateUpdate skipValidation| | |c]; simpl; try lia.
  - destruct (update getAddress stateUpdate skipValidation w) as [[st|e] w'] eqn:E; simpl.
    + apply update_Return in E as (_ & _ & ->). lia.
    + apply update_Throw in E as (_ & ->). lia.
  - cancel_cases c w; simpl; lia.
Qed.

Lemma run_nullifier_mono (calls : list Call) (w : World) :
  (nullifier w <= nullifier (run getAddress calls w))%N.
Proof.
  revert w. induction calls as [|call calls IH]; intros w; simpl; [lia|].
  etransitivity; [apply (exec_nullifier_mono call)|apply IH].
Qed.

Lemma exec_advances (call : Call) (w : World) :
  advances getAddress call w -> (nullifier w < nullifier (exec getAddress call w))%N.
Proof.
  destruct call as [|stateUpdate skipValidation| | |c]; simpl;
    try lia; try contradiction.
  destruct (update getAddress stateUpdate skipValidation w) as [[st|e] w'] eqn:E; simpl;
    [|contradiction].
  apply update_Return in E as (_ & _ & ->). lia.
Qed.

(** ** Activation and cancellation *)

(** C5. From every prior world [startActivation] returns, and the
    state it leaves is the default state with [activating] true:
    [chainId], [accounts], [accountIndex], [addingChain],
    [switchingChain] and [watchingAsset] are all unset, whatever they
    held before. *)
Theorem startActivation_resets_state (w : World) :
  returned (fst (startActivation w)) /\
  store (snd (startActivation w)) =
    {| chainId := None; accountIndex := None; accounts := None;
       activating := true; addingChain := None; switchingChain := None;
       watchingAsset := None |} /\
  heap (snd (startActivation w)) = heap w.
Proof. rewrite startActivation_eq. simpl. auto. Qed.

(** C7. When the closure runs while [nullifier] still has the value it
    captured, it returns the new state, in which [activating] is false
    and [addingChain] and [switchingChain] are unset, while [chainId],
    [accounts], [accountIndex] and [watchingAsset] are exactly what
    they were; the arrays and the counter are not touched. *)
Theorem effective_cancel_frame (c : Cancel) (w : World) :
  nullifier w = nullifierCached c ->
  exists s : Web3ReactState,
    cancelActivation c w =
      (Return s, {| heap := heap w; store := s; nullifier := nullifier w |}) /\
    activating s = false /\
    addingChain s = None /\
    switchingChain s = None /\
    chainId s = chainId (store w) /\
    accounts s = accounts (store w) /\
    accountIndex s = accountIndex (store w) /\
    watchingAsset s = watchingAsset (store w).
Proof.
  intros H. exists (cancelled (store w)).
  rewrite cancelActivation_current by exact H. simpl. tauto.
Qed.

Lemma cancel_after_advance (w w1 : World) (c : Cancel)
    (before after : list Call) (call : Call) :
  startActivation w = (Return c, w1) ->
  advances getAddress call (run getAddress before w1) ->
  cancelActivation c (run getAddress after (exec getAddress call (run getAddress before w1))) =
  (Return (store (run getAddress after (exec getAddress call (run getAddress before w1)))),
   run getAddress after (exec getAddress call (run getAddress before w1))).
Proof.
  rewrite startActivation_eq. intros [= <- <-] Hadv.
  apply cancelActivation_stale. simpl.
  pose proof (run_nullifier_mono after (exec getAddress call (run getAddress before
    {| heap := heap w;
       store := merge (store w) (with_activating (literal DEFAULT_STATE) true);
       nullifier := (nullifier w + 1)%N |}))) as H1.
  pose proof (exec_advances _ _ Hadv) as H2.
  pose proof (run_nullifier_mono before
    {| heap := heap w;
       store := merge (store w) (with_activating (literal DEFAULT_STATE) true);
       nullifier := (nullifier w + 1)%N |}) as H3.
  simpl in H3. lia.
Qed.

(** C1. Take the closure of a [startActivation]. Once a later call has
    advanced the counter (another [startActivation], an [update] that
    returned, or a [resetState]), with any calls before and after it,
    running the closure changes nothing at all (store, arrays and
    counter are the same world) and returns the current state. *)
Theorem stale_cancel_is_noop (w w1 : World) (c : Cancel)
    (before after : list Call) (call : Call) :
  startActivation w = (Return c, w1) ->
  advances getAddress call (run getAddress before w1) ->
  let w' := run getAddress after (exec getAddress call (run getAddress before w1)) in
  cancelActivation c w' = (Return (store w'), w').
Proof.
  intros Hstart Hadv w'. subst w'.
  exact (cancel_after_advance w w1 c before after call Hstart Hadv).
Qed.

(** C8. From any world, [resetState] returns the default state and
    stores it, and so does a second [resetState] right after it; and a
    closure from any activation begun before a [resetState] does
    nothing when it runs after that reset, whatever was called in
    between. *)
Theorem resetState_idempotent (w w0 wa : World) (c : Cancel)
    (calls after : list Call) :
  (let w1 := snd (resetState w) in
   let w2 := snd (resetState w1) in
   fst (resetState w) = Return DEFAULT_STATE /\
   fst (resetState w1) = Return DEFAULT_STATE /\
   store w1 = DEFAULT_STATE /\
   store w2 = DEFAULT_STATE /\
   heap w2 = heap w) /\
  (startActivation w0 = (Return c, wa) ->
   let w' := run getAddress after (snd (resetState (run getAddress calls wa))) in
   cancelActivation c w' = (Return (store w'), w')).
Proof.
  split; [rewrite !resetState_eq; simpl; auto|].
  intros Hstart.
  apply (cancel_after_advance w0 wa c calls after CallResetState Hstart I).
Qed.


(** ** What [update] derives *)

Lemma truthy_spec (x : number) :
  Number.truthy x = true <-> x <> Number.NaN /\ ~ Number.denotes x 0.
Proof.
  destruct x as [q|b|]; simpl.
  - rewrite negb_true_iff, <- not_true_iff_false, Qeq_bool_iff.
    split; [intros H; split; [discriminate|exact H] | intros [_ H]; exact H].
  - split; [intros _; split; [discriminate|tauto] | reflexivity].
  - split; [discriminate | intros [H _]; congruence].
Qed.

(** C2, as the code has it. From a state with [activating] true, an
    [update] that returns leaves [activating] false exactly when the
    resulting [chainId] is defined and is neither zero nor NaN and the
    resulting [accounts] is defined, be the array empty or not; so an
    update supplying a non-zero chain id and an array of accounts
    clears [activating] in that same call. *)
Theorem activating_cleared_iff_set (w w' : World) (st : Web3ReactState)
    (stateUpdate : Web3ReactStateUpdate) (skipValidation : bool) :
  update getAddress stateUpdate skipValidation w = (Return st, w') ->
  activating (store w) = true ->
  store w' = st /\
  (activating st = false <->
   (exists x : number,
      chainId st = Some x /\ x <> Number.NaN /\ ~ Number.denotes x 0) /\
   (exists l : loc, accounts st = Some l)) /\
  (forall (x : number) (l : loc),
     read (u_chainId stateUpdate) = Some x ->
     x <> Number.NaN -> ~ Number.denotes x 0 ->
     read (u_accounts stateUpdate) = Some l ->
     activating st = false).
Proof.
  intros Hupd Hact. apply update_Return in Hupd as (-> & Hst & _).
  split; [exact Hst|]. unfold updater; simpl. rewrite Hact; simpl.
  split.
  - destruct (nullish (read (u_chainId stateUpdate)) (chainId (store w)))
      as [x|]; simpl.
    + destruct (Number.truthy x) eqn:Hx; simpl.
      * apply truthy_spec in Hx.
        destruct (nullish (read (u_accounts stateUpdate)) (accounts (store w)))
          as [l|]; simpl.
        -- split; [intros _; eauto | reflexivity].
        -- split; [discriminate | intros [_ [l [=]]]].
      * split; [discriminate|].
        intros [(x' & [= <-] & Hnan & Hz) _].
        assert (Number.truthy x = true) by (apply truthy_spec; auto).
        congruence.
    + split; [discriminate | intros [(x & [=] & _) _]].
  - intros x l -> Hnan Hz ->. simpl.
    assert (Number.truthy x = true) as -> by (apply truthy_spec; auto).
    reflexivity.
Qed.

(** C4. In an [update] that returns, for each of [accountIndex],
    [addingChain], [switchingChain] and [watchingAsset]: a patch that
    names the field with [undefined] leaves the field unset, and a
    patch without the field leaves the field as it was. *)
Theorem explicit_clear_versus_omitted (w w' : World) (st : Web3ReactState)
    (stateUpdate : Web3ReactStateUpdate) (skipValidation : bool) :
  update getAddress stateUpdate skipValidation w = (Return st, w') ->
  store w' = st /\
  (u_accountIndex stateUpdate = Present None -> accountIndex st = None) /\
  (u_accountIndex stateUpdate = Absent ->
   accountIndex st = accountIndex (store w)) /\
  (u_addingChain stateUpdate = Present None -> addingChain st = None) /\
  (u_addingChain stateUpdate = Absent ->
   addingChain st = addingChain (store w)) /\
  (u_switchingChain stateUpdate = Present None -> switchingChain st = None) /\
  (u_switchingChain stateUpdate = Absent ->
   switchingChain st = switchingChain (store w)) /\
  (u_watchingAsset stateUpdate = Present None -> watchingAsset st = None) /\
  (u_watchingAsset stateUpdate = Absent ->
   watchingAsset st = watchingAsset (store w)).
Proof.
  intros Hupd. apply update_Return in Hupd as (-> & Hst & _).
  split; [exact Hst|]. unfold updater; simpl.
  repeat split; intros ->; reflexivity.
Qed.

(** C10. No [update], returning or throwing, takes [chainId] or
    [accounts] from defined to unset, even when the patch names the
    field with [undefined]; the closure and [getState] leave both as
    they are; [startActivation] and [resetState] are the calls that
    unset them. *)
Theorem update_never_clears_chainId_accounts (w : World)
    (stateUpdate : Web3ReactStateUpdate) (skipValidation : bool) (c : Cancel) :
  (is_Some (chainId (store w)) ->
   is_Some (chainId (store (snd (update getAddress stateUpdate skipValidation w))))) /\
  (is_Some (accounts (store w)) ->
   is_Some (accounts (store (snd (update getAddress stateUpdate skipValidation w))))) /\
  chainId (store (snd (cancelActivation c w))) = chainId (store w) /\
  accounts (store (snd (cancelActivation c w))) = accounts (store w) /\
  store (snd (getState w)) = store w /\
  chainId (store (snd (startActivation w))) = None /\
  accounts (store (snd (startActivation w))) = None /\
  chainId (store (snd (resetState w))) = None /\
  accounts (store (snd (resetState w))) = None.
Proof.
  assert (forall A (a b : option A), is_Some b -> is_Some (nullish a b)) as Hn.
  { intros A [x|] b Hb; simpl; [eauto | exact Hb]. }
  destruct (update getAddress stateUpdate skipValidation w) as [[st|e] w'] eqn:E; simpl.
  - apply update_Return in E as (-> & -> & _). unfold updater; simpl.
    split; [apply Hn|]. split; [apply Hn|].
    cancel_cases c w; simpl; tauto.
  - apply update_Throw in E as (-> & _).
    split; [tauto|]. split; [tauto|].
    cancel_cases c w; simpl; tauto.
Qed.

(** ** Validation failures and what they leave behind *)

(** C3. An [update] (validation not skipped) whose patch carries the
    chain id 4503599627370476 and no accounts returns, with that chain
    id stored; one whose chain id is not an integer from 1 to
    4503599627370476 throws and leaves the world (store, arrays,
    counter) as it was. 4503599627370477, 0 and -1 are such chain ids,
    and so is every number that is not an integer. *)
Theorem chain_id_bound (w : World) (stateUpdate : Web3ReactStateUpdate) :
  (read (u_chainId stateUpdate) = Some (Number.of_Z 4503599627370476) ->
   read (u_accounts stateUpdate) = None ->
   exists st : Web3ReactState,
     update getAddress stateUpdate false w =
       (Return st,
        {| heap := heap w; store := st; nullifier := (nullifier w + 1)%N |}) /\
     chainId st = Some (Number.of_Z 4503599627370476)) /\
  (forall x : number,
     read (u_chainId stateUpdate) = Some x ->
     ~ chain_id_in_bounds x ->
     update getAddress stateUpdate false w = (Throw (InvalidChainId x), w)) /\
  ~ chain_id_in_bounds (Number.of_Z 4503599627370477) /\
  ~ chain_id_in_bounds (Number.of_Z 0) /\
  ~ chain_id_in_bounds (Number.of_Z (-1)) /\
  (forall x : number, Number.isInteger x = false -> ~ chain_id_in_bounds x).
Proof.
  assert (forall z : Z, ~ (0 < z <= 4503599627370476)%Z ->
                        ~ chain_id_in_bounds (Number.of_Z z)) as Hout.
  { intros z Hz (z' & Hd & Hb). simpl in Hd.
    unfold Qeq in Hd; simpl in Hd. lia. }
  split; [|split; [|repeat split]].
  - intros Hc Ha. exists (updater stateUpdate (store w)).
    rewrite update_eq. unfold chainId_step, accounts_step.
    rewrite Hc, Ha. simpl. split; [reflexivity|].
    unfold updater; simpl. rewrite Hc. reflexivity.
  - intros x Hc Hx. rewrite update_eq. unfold chainId_step. rewrite Hc. simpl.
    rewrite (validateChainId_Throw x Hx). reflexivity.
  - apply Hout. lia.
  - apply Hout. lia.
  - apply Hout. lia.
  - intros x Hx (z & Hz & _).
    assert (Number.isInteger x = true) by (apply isInteger_denotes; eauto).
    congruence.
Qed.

Lemma checksum_prefix_valid (a : list string) :
  Forall (fun x => is_Some (getAddress x)) a ->
  snd (checksum_prefix getAddress a) = None /\
  Forall2 (fun x c => getAddress x = Some c) a (fst (checksum_prefix getAddress a)).
Proof.
  induction 1 as [|x a [c Hc] _ [IH1 IH2]]; simpl.
  - split; [reflexivity | constructor].
  - rewrite Hc. simpl. split; [exact IH1 | constructor; assumption].
Qed.

Lemma checksum_prefix_invalid (a : list string) (x : string) :
  x ∈ a -> getAddress x = None ->
  exists e : Error, snd (checksum_prefix getAddress a) = Some e.
Proof.
  induction 1 as [x a|x y a Hin IH]; intros Hx; simpl.
  - rewrite Hx. simpl. eauto.
  - destruct (getAddress y); simpl; [exact (IH Hx) | eauto].
Qed.

Lemma validateAccounts_array (l : loc) (w : World) :
  array (heap (snd (validateAccounts getAddress l w))) l =
  fst (checksum_prefix getAddress (array (heap w) l)).
Proof.
  rewrite validateAccounts_eq. unfold array; simpl.
  destruct (heap w !! l) as [a|] eqn:Hl; simpl.
  - by rewrite lookup_insert_eq.
  - by rewrite Hl.
Qed.

Lemma validateAccounts_others (l l' : loc) (w : World) :
  l' <> l -> heap (snd (validateAccounts getAddress l w)) !! l' = heap w !! l'.
Proof.
  intros Hne. rewrite validateAccounts_eq; simpl.
  destruct (heap w !! l); [|reflexivity].
  by rewrite lookup_insert_ne.
Qed.

(** One [update] carrying the array [l], validation not skipped. If
    the chain id (when given) is in bounds and [getAddress] accepts
    every entry, [update] returns, [accounts] is that array, and each
    entry now is what [getAddress] gives for the entry supplied. If
    [getAddress] rejects some entry, [update] throws with the store's
    fields and the counter as they were and every other array
    untouched. *)
Lemma update_accounts_outcome (w : World)
    (stateUpdate : Web3ReactStateUpdate) (l : loc) :
  read (u_accounts stateUpdate) = Some l ->
  ((forall x : number,
      read (u_chainId stateUpdate) = Some x -> chain_id_in_bounds x) ->
   Forall (fun a => is_Some (getAddress a)) (array (heap w) l) ->
   exists (st : Web3ReactState) (w' : World),
     update getAddress stateUpdate false w = (Return st, w') /\
     store w' = st /\
     accounts st = Some l /\
     Forall2 (fun a c => getAddress a = Some c)
       (array (heap w) l) (array (heap w') l)) /\
  (forall a : string,
     a ∈ array (heap w) l -> getAddress a = None ->
     exists (e : Error) (w' : World),
       update getAddress stateUpdate false w = (Throw e, w') /\
       store w' = store w /\
       nullifier w' = nullifier w /\
       (forall l' : loc, l' <> l -> heap w' !! l' = heap w !! l') /\
       (accounts (store w) <> Some l ->
        forall l0 : loc,
          accounts (store w') = Some l0 ->
          array (heap w') l0 = array (heap w) l0)).
Proof.
  intros Ha.
  assert (accounts_step getAddress stateUpdate false w = validateAccounts getAddress l w) as Hstep.
  { unfold accounts_step. rewrite Ha. reflexivity. }
  pose proof (validateAccounts_array l w) as Harr.
  pose proof (fun l' => validateAccounts_others l l' w) as Hothers.
  rewrite update_eq, Hstep.
  rewrite validateAccounts_eq in Harr, Hothers |- *. simpl in *.
  split.
  - intros Hc Hvalid. apply checksum_prefix_valid in Hvalid as [Hnone Hall].
    assert (chainId_step stateUpdate false = Return tt) as ->.
    { unfold chainId_step.
      destruct (read (u_chainId stateUpdate)) as [x|]; [|reflexivity].
      simpl. apply validateChainId_Return. auto. }
    rewrite Hnone. simpl.
    eexists _, _. split; [reflexivity|]. simpl. split; [reflexivity|].
    split; [by rewrite Ha|]. rewrite Harr. exact Hall.
  - intros a Hin Hbad.
    destruct (checksum_prefix_invalid _ _ Hin Hbad) as [e ->]. simpl.
    destruct (chainId_step stateUpdate false) as [[]|e0].
    + eexists _, _. split; [reflexivity|]. simpl.
      split; [reflexivity|]. split; [reflexivity|].
      split; [exact Hothers|].
      intros Hne l0 Hl0. unfold array. f_equal. apply Hothers. congruence.
    + exists e0, w. repeat split; auto.
Qed.

End Properties.

(** * The statements at the sample connector *)

Example sample_run :
  store (run sample_getAddress
           [CallStartActivation;
            CallUpdate (connect_update (Number.of_Z 1) 1%positive) false]
           fresh_world) =
  {| chainId := Some (Number.of_Z 1); accountIndex := None;
     accounts := Some 1%positive; activating := false;
     addingChain := None; switchingChain := None; watchingAsset := None |}.
Proof. vm_compute. reflexivity. Qed.

Lemma stale_cancel_is_noop_witness :
  startActivation fresh_world = (Return first_cancel, activating_world) /\
  advances sample_getAddress CallStartActivation
    (run sample_getAddress [CallGetState] activating_world) /\
  cancelActivation first_cancel
    (run sample_getAddress
       [CallUpdate (chainId_update (Number.of_Z 5)) false]
       (exec sample_getAddress CallStartActivation
          (run sample_getAddress [CallGetState] activating_world))) =
  (Return
     {| chainId := Some (Number.of_Z 5); accountIndex := None;
        accounts := None; activating := true; addingChain := None;
        switchingChain := None; watchingAsset := None |},
   {| heap := sample_heap;
      store :=
        {| chainId := Some (Number.of_Z 5); accountIndex := None;
           accounts := None; activating := true; addingChain := None;
           switchingChain := None; watchingAsset := None |};
      nullifier := 3 |}).
Proof.
  split; [reflexivity|]. split; [exact I|].
  exact (stale_cancel_is_noop sample_getAddress fresh_world activating_world
           first_cancel [CallGetState]
           [CallUpdate (chainId_update (Number.of_Z 5)) false]
           CallStartActivation eq_refl I).
Defined.

Lemma effective_cancel_frame_witness :
  nullifier busy_world = 7%N /\
  exists s : sample_state,
    cancelActivation {| nullifierCached := 7 |} busy_world =
      (Return s, {| heap := sample_heap; store := s; nullifier := 7 |}) /\
    activating s = false /\
    addingChain s = None /\
    switchingChain s = None /\
    chainId s = Some (Number.of_Z 1) /\
    accounts s = Some 1%positive /\
    accountIndex s = Some (Number.of_Z 0) /\
    watchingAsset s = Some "DAI".
Proof.
  split; [reflexivity|].
  exact (effective_cancel_frame {| nullifierCached := 7 |} busy_world eq_refl).
Defined.

Lemma resetState_idempotent_witness :
  startActivation fresh_world = (Return first_cancel, activating_world) /\
  fst (resetState busy_world) = Return DEFAULT_STATE /\
  fst (resetState (snd (resetState busy_world))) = Return DEFAULT_STATE /\
  store (snd (resetState (snd (resetState busy_world)))) = DEFAULT_STATE /\
  cancelActivation first_cancel
    (snd (resetState
            (run sample_getAddress
               [CallUpdate (chainId_update (Number.of_Z 0)) false]
               activating_world))) =
  (Return DEFAULT_STATE,
   {| heap := sample_heap; store := DEFAULT_STATE; nullifier := 2 |}).
Proof.
  pose proof (resetState_idempotent sample_getAddress busy_world fresh_world
                activating_world first_cancel
                [CallUpdate (chainId_update (Number.of_Z 0)) false] [])
    as [(H1 & H2 & _ & H4 & _) H].
  split; [reflexivity|]. split; [exact H1|]. split; [exact H2|].
  split; [exact H4|]. exact (H eq_refl).
Defined.


Lemma activating_cleared_iff_set_witness :
  update sample_getAddress (connect_update (Number.of_Z 1) 1%positive) false
    activating_world =
    (Return
       {| chainId := Some (Number.of_Z 1); accountIndex := None;
          accounts := Some 1%positive; activating := false;
          addingChain := None; switchingChain := None;
          watchingAsset := None |},
     {| heap := <[1%positive := [checksummed_address; checksummed_address]]>
                  sample_heap;
        store :=
          {| chainId := Some (Number.of_Z 1); accountIndex := None;
             accounts := Some 1%positive; activating := false;
             addingChain := None; switchingChain := None;
             watchingAsset := None |};
        nullifier := 2 |}) /\
  activating (store activating_world) = true /\
  (false = false <->
   (exists x : number,
      Some (Number.of_Z 1) = Some x /\
      x <> Number.NaN /\ ~ Number.denotes x 0) /\
   (exists l : loc, Some 1%positive = Some l)).
Proof.
  assert (update sample_getAddress
            (connect_update (Number.of_Z 1) 1%positive) false
            activating_world =
          (Return
             {| chainId := Some (Number.of_Z 1); accountIndex := None;
                accounts := Some 1%positive; activating := false;
                addingChain := None; switchingChain := None;
                watchingAsset := None |},
           {| heap := <[1%positive := [checksummed_address; checksummed_address]]>
                        sample_heap;
              store :=
                {| chainId := Some (Number.of_Z 1); accountIndex := None;
                   accounts := Some 1%positive; activating := false;
                   addingChain := None; switchingChain := None;
                   watchingAsset := None |};
              nullifier := 2 |})) as Hupd by (vm_compute; reflexivity).
  split; [exact Hupd|]. split; [reflexivity|].
  exact (proj1 (proj2
    (activating_cleared_iff_set sample_getAddress activating_world _ _
       (connect_update (Number.of_Z 1) 1%positive) false Hupd eq_refl))).
Defined.

Lemma explicit_clear_versus_omitted_witness :
  update sample_getAddress clearing_update false busy_world =
    (Return
       {| chainId := Some (Number.of_Z 1); accountIndex := None;
          accounts := Some 1%positive; activating := false;
          addingChain := None; switchingChain := Some "0x1";
          watchingAsset := Some "DAI" |},
     {| heap := sample_heap;
        store :=
          {| chainId := Some (Number.of_Z 1); accountIndex := None;
             accounts := Some 1%positive; activating := false;
             addingChain := None; switchingChain := Some "0x1";
             watchingAsset := Some "DAI" |};
        nullifier := 8 |}) /\
  u_accountIndex clearing_update = Present None /\
  u_switchingChain clearing_update = Absent /\
  switchingChain (store busy_world) = Some "0x1".
Proof.
  assert (update sample_getAddress clearing_update false busy_world =
    (Return
       {| chainId := Some (Number.of_Z 1); accountIndex := None;
          accounts := Some 1%positive; activating := false;
          addingChain := None; switchingChain := Some "0x1";
          watchingAsset := Some "DAI" |},
     {| heap := sample_heap;
        store :=
          {| chainId := Some (Number.of_Z 1); accountIndex := None;
             accounts := Some 1%positive; activating := false;
             addingChain := None; switchingChain := Some "0x1";
             watchingAsset := Some "DAI" |};
        nullifier := 8 |})) as Hupd by reflexivity.
  split; [exact Hupd|].
  pose proof (explicit_clear_versus_omitted sample_getAddress busy_world _ _
                clearing_update false Hupd) as (_ & H1 & _ & _ & _ & _ & H6 & _).
  split; [reflexivity|]. split; [reflexivity|].
  exact (H6 eq_refl).
Defined.

Lemma chain_id_bound_witness :
  (read (u_chainId (chainId_update (Number.of_Z 4503599627370476))) =
     Some (Number.of_Z 4503599627370476) /\
   read (u_accounts (chainId_update (Number.of_Z 4503599627370476))) = None /\
   exists st : sample_state,
     update sample_getAddress (chainId_update (Number.of_Z 4503599627370476))
       false fresh_world =
       (Return st, {| heap := sample_heap; store := st; nullifier := 1 |}) /\
     chainId st = Some (Number.of_Z 4503599627370476)) /\
  (~ chain_id_in_bounds (Number.of_Z 4503599627370477) /\
   update sample_getAddress (chainId_update (Number.of_Z 4503599627370477))
     false fresh_world =
     (Throw (InvalidChainId (Number.of_Z 4503599627370477)), fresh_world)).
Proof.
  split.
  - split; [reflexivity|]. split; [reflexivity|].
    exact (proj1 (chain_id_bound sample_getAddress fresh_world
                    (chainId_update (Number.of_Z 4503599627370476)))
             eq_refl eq_refl).
  - pose proof (chain_id_bound sample_getAddress fresh_world
                  (chainId_update (Number.of_Z 4503599627370477)))
      as (_ & Hthrow & Hout & _).
    split; [exact Hout|].
    exact (Hthrow _ eq_refl Hout).
Defined.

Lemma update_never_clears_chainId_accounts_witness :
  is_Some (chainId (store busy_world)) /\
  is_Some (accounts (store busy_world)) /\
  is_Some (chainId (store (snd (update sample_getAddress unsetting_update
                                  false busy_world)))) /\
  is_Some (accounts (store (snd (update sample_getAddress unsetting_update
                                   false busy_world)))).
Proof.
  assert (is_Some (chainId (store busy_world))) as Hc by (eexists; reflexivity).
  assert (is_Some (accounts (store busy_world))) as Ha by (eexists; reflexivity).
  pose proof (update_never_clears_chainId_accounts sample_getAddress busy_world
                unsetting_update false first_cancel) as (H1 & H2 & _).
  split; [exact Hc|]. split; [exact Ha|].
  split; [exact (H1 Hc) | exact (H2 Ha)].
Defined.

(** ** Where the specification and the code part ways *)

(** An activation is under way and the wallet answers with chain 1
    and an empty account list, [update({ chainId: 1, accounts: [] })]:
    the resulting [accounts] is a defined, empty array, and
    [activating] is cleared all the same, since an array is truthy.
    And with [update({ chainId: 0, accounts: a }, true)], [a] holding
    two addresses, both fields end up defined and the list is not
    empty, yet [activating] stays true, since 0 is falsy. *)
Lemma activating_gate_is_truthiness :
  (activating (store activating_world) = true /\
   returned (fst (update sample_getAddress
                    (connect_update (Number.of_Z 1) 3%positive) false
                    activating_world)) /\
   accounts (store (snd (update sample_getAddress
                           (connect_update (Number.of_Z 1) 3%positive) false
                           activating_world))) = Some 3%positive /\
   array (heap (snd (update sample_getAddress
                       (connect_update (Number.of_Z 1) 3%positive) false
                       activating_world))) 3%positive = [] /\
   activating (store (snd (update sample_getAddress
                             (connect_update (Number.of_Z 1) 3%positive) false
                             activating_world))) = false) /\
  (update sample_getAddress (connect_update (Number.of_Z 0) 1%positive) true
     activating_world =
   (Return
      {| chainId := Some (Number.of_Z 0); accountIndex := None;
         accounts := Some 1%positive; activating := true;
         addingChain := None; switchingChain := None;
         watchingAsset := None |},
    {| heap := sample_heap;
       store :=
         {| chainId := Some (Number.of_Z 0); accountIndex := None;
            accounts := Some 1%positive; activating := true;
            addingChain := None; switchingChain := None;
            watchingAsset := None |};
       nullifier := 2 |}) /\
   array sample_heap 1%positive =
     [lower_case_address; checksummed_address]).
Proof. vm_compute. repeat split. Qed.

(** * Further properties: invariants of the engine *)

Section Invariants.

Context {AddingChainInfo SwitchingChainInfo WatchAssetParameters : Type}.
Variable getAddress : string -> option string.

Local Abbreviation Web3ReactState :=
  (@Web3ReactState AddingChainInfo SwitchingChainInfo WatchAssetParameters).
Local Abbreviation Web3ReactStateUpdate :=
  (@Web3ReactStateUpdate AddingChainInfo SwitchingChainInfo WatchAssetParameters).
Local Abbreviation World :=
  (@World AddingChainInfo SwitchingChainInfo WatchAssetParameters).
Local Abbreviation Call :=
  (@Call AddingChainInfo SwitchingChainInfo WatchAssetParameters).

(** The store a call leaves is one of five. *)
Lemma exec_store_cases (call : Call) (w : World) :
  store (exec getAddress call w) = store w \/
  store (exec getAddress call w) = DEFAULT_STATE \/
  (call = CallStartActivation /\
   store (exec getAddress call w) =
     merge (store w) (with_activating (literal DEFAULT_STATE) true)) \/
  store (exec getAddress call w) = cancelled (store w) \/
  (exists stateUpdate skipValidation,
     call = CallUpdate stateUpdate skipValidation /\
     returned (fst (update getAddress stateUpdate skipValidation w)) /\
     store (exec getAddress call w) = updater stateUpdate (store w)).
Proof.
  destruct call as [|stateUpdate skipValidation| | |c]; cbn [exec].
  - right; right; left. rewrite startActivation_eq. auto.
  - destruct (update getAddress stateUpdate skipValidation w) as [[st|e] w'] eqn:E.
    + pose proof (update_Return _ _ _ _ _ _ E) as (-> & Hs & _).
      right; right; right; right. exists stateUpdate, skipValidation.
      rewrite E. simpl. rewrite Hs. repeat split; reflexivity.
    + simpl. apply update_Throw in E as (-> & _). auto.
  - right; left. reflexivity.
  - left. reflexivity.
  - destruct (N.eq_dec (nullifier w) (nullifierCached c)) as [H|H].
    + rewrite cancelActivation_current by exact H. auto.
    + rewrite cancelActivation_stale by exact H. auto.
Qed.


Lemma run_cons (call : Call) (calls : list Call) (w : World) :
  run getAddress (call :: calls) w = run getAddress calls (exec getAddress call w).
Proof. reflexivity. Qed.

Lemma update_Return_chainId (stateUpdate : Web3ReactStateUpdate) (w : World)
    (x : number) :
  returned (fst (update getAddress stateUpdate false w)) ->
  read (u_chainId stateUpdate) = Some x ->
  chain_id_in_bounds x.
Proof.
  rewrite update_eq. unfold chainId_step. intros Hret Hx. rewrite Hx in Hret.
  simpl in Hret. apply validateChainId_Return.
  destruct (validateChainId x) as [[]|e]; [reflexivity | contradiction].
Qed.

(** X1. Along any run in which no [update] skips validation, a
    stored [chainId] stays an integer from 1 to 4503599627370476 once
    it is one (and it is one vacuously on a fresh engine and after
    [startActivation] or [resetState]). *)
Theorem chainId_stays_in_bounds (calls : list Call) (w : World) :
  Forall validating calls ->
  (forall x : number, chainId (store w) = Some x -> chain_id_in_bounds x) ->
  forall x : number,
    chainId (store (run getAddress calls w)) = Some x -> chain_id_in_bounds x.
Proof.
  intros Hv. revert w. induction Hv as [|call calls Hcall _ IH]; intros w Hw.
  - exact Hw.
  - rewrite run_cons. apply IH. intros x.
    destruct (exec_store_cases call w)
      as [->|[->|[[_ ->]|[->|(su & skip & -> & Hret & ->)]]]];
      simpl; try discriminate; try apply Hw.
    simpl in Hcall. subst skip.
    destruct (read (u_chainId su)) as [c|] eqn:Hc; simpl.
    + intros [= <-]. exact (update_Return_chainId su w c Hret Hc).
    + apply Hw.
Qed.

(** X2. [activating] is a one-way gate: along any run without a
    [startActivation], once it is false it stays false. *)
Theorem activating_only_set_by_activation (calls : list Call) (w : World) :
  Forall not_activation calls ->
  activating (store w) = false ->
  activating (store (run getAddress calls w)) = false.
Proof.
  intros Hn. revert w. induction Hn as [|call calls Hcall _ IH]; intros w Hw.
  - exact Hw.
  - rewrite run_cons. apply IH.
    destruct (exec_store_cases call w)
      as [->|[->|[[-> _]|[->|(su & skip & -> & _ & ->)]]]];
      simpl; try reflexivity; try exact Hw; try contradiction.
    rewrite Hw. reflexivity.
Qed.

(** X3. While [activating] is true the connection data is incomplete:
    along any run, from a state where this holds (a fresh engine is
    one), a state with [activating] true never has both a truthy
    [chainId] and defined [accounts]. *)
Theorem activating_means_incomplete (calls : list Call) (w : World) :
  (activating (store w) = true ->
   ~ ((exists x : number, chainId (store w) = Some x /\ nonzero x) /\
      is_Some (accounts (store w)))) ->
  activating (store (run getAddress calls w)) = true ->
  ~ ((exists x : number,
        chainId (store (run getAddress calls w)) = Some x /\ nonzero x) /\
     is_Some (accounts (store (run getAddress calls w)))).
Proof.
  revert w. induction calls as [|call calls IH]; intros w Hw.
  - exact Hw.
  - rewrite run_cons. apply IH.
    destruct (exec_store_cases call w)
      as [->|[->|[[_ ->]|[->|(su & skip & -> & _ & ->)]]]];
      simpl; try discriminate; try exact Hw.
    + intros _ [(x & [=] & _) _].
    + destruct (activating (store w)) eqn:Hact; simpl; [|discriminate].
      destruct (truthy_chainId _) eqn:Hc; simpl.
      * destruct (truthy_accounts _) eqn:Ha; simpl; [discriminate|].
        intros _ [_ [l Hl]]. rewrite Hl in Ha. discriminate.
      * intros _ [(x & Hx & Hnz) _]. rewrite Hx in Hc. simpl in Hc.
        assert (Number.truthy x = true) by (apply truthy_spec; exact Hnz).
        congruence.
Qed.

Lemma updater_idempotent (stateUpdate : Web3ReactStateUpdate)
    (s : Web3ReactState) :
  updater stateUpdate (updater stateUpdate s) = updater stateUpdate s.
Proof.
  unfold updater; simpl.
  destruct (read (u_chainId stateUpdate)), (read (u_accounts stateUpdate)),
    (u_accountIndex stateUpdate), (u_addingChain stateUpdate),
    (u_switchingChain stateUpdate), (u_watchingAsset stateUpdate),
    (activating s), (chainId s) as [x|], (accounts s);
    simpl; try reflexivity;
    repeat match goal with
      | |- context [Number.truthy ?y] => destruct (Number.truthy y); simpl
      end; reflexivity.
Qed.

Lemma checksum_prefix_keeps (a : list string) :
  Forall (is_checksummed getAddress) a ->
  Forall (is_checksummed getAddress) (fst (checksum_prefix getAddress a)).
Proof.
  induction 1 as [|x a Hx Ha IH]; simpl; [constructor|].
  destruct (getAddress x) as [c|] eqn:Hc; simpl.
  - constructor; [exists x; exact Hc | exact IH].
  - constructor; assumption.
Qed.

Lemma checksum_prefix_complete (a : list string) :
  snd (checksum_prefix getAddress a) = None ->
  Forall (is_checksummed getAddress) (fst (checksum_prefix getAddress a)).
Proof.
  induction a as [|x a IH]; simpl; [constructor|].
  destruct (getAddress x) as [c|] eqn:Hc; simpl; [|discriminate].
  intros H. constructor; [exists x; exact Hc | exact (IH H)].
Qed.

Lemma checksum_prefix_fixed (a : list string) :
  Forall (fun c => getAddress c = Some c) a ->
  checksum_prefix getAddress a = (a, None).
Proof.
  induction 1 as [|c a Hc _ IH]; simpl; [reflexivity|].
  rewrite Hc, IH. reflexivity.
Qed.

(** Validating an array a second time finds it as the first time left
    it. *)
Lemma validateAccounts_again (l : loc) (w : World) :
  getAddress_idempotent getAddress ->
  fst (validateAccounts getAddress l w) = Return tt ->
  validateAccounts getAddress l (snd (validateAccounts getAddress l w)) =
  (Return tt, snd (validateAccounts getAddress l w)).
Proof.
  intros Hid.
  pose proof (validateAccounts_eq getAddress l w) as E.
  destruct (validateAccounts getAddress l w) as [r w1].
  injection E as Hr Hw1. cbn [fst snd]. intros ->.
  assert (snd (checksum_prefix getAddress (array (heap w) l)) = None) as Hnone.
  { destruct (snd (checksum_prefix getAddress (array (heap w) l)));
      [discriminate | reflexivity]. }
  rewrite validateAccounts_eq.
  destruct (heap w !! l) as [a|] eqn:Hl.
  - assert (array (heap w) l = a) as Ha by (unfold array; rewrite Hl; reflexivity).
    rewrite Ha in Hnone.
    assert (heap w1 !! l = Some (fst (checksum_prefix getAddress a))) as Hl1.
    { rewrite Hw1. cbn [heap]. apply lookup_insert_eq. }
    assert (checksum_prefix getAddress (fst (checksum_prefix getAddress a)) =
            (fst (checksum_prefix getAddress a), None)) as Hfix.
    { apply checksum_prefix_fixed.
      eapply Forall_impl; [exact (checksum_prefix_complete a Hnone)|].
      intros c [supplied Hc]. exact (Hid supplied c Hc). }
    unfold array. rewrite Hl1. cbn [default from_option id]. rewrite Hfix.
    cbn [fst snd outcome].
    rewrite insert_id by exact Hl1. by rewrite world_eta.
  - assert (heap w1 !! l = None) as Hl1 by (rewrite Hw1; cbn [heap]; exact Hl).
    unfold array. rewrite Hl1.
    cbn [default from_option id checksum_prefix fst snd outcome].
    by rewrite world_eta.
Qed.

(** X4. Given that [getAddress] returns its own results unchanged,
    reporting the same patch twice in a row changes nothing the second
    time: when the first call returns, the second returns the same
    state and leaves the store and every array as the first left
    them; only the counter advances. *)
Theorem update_twice (stateUpdate : Web3ReactStateUpdate)
    (skipValidation : bool) (w w1 : World) (st : Web3ReactState) :
  getAddress_idempotent getAddress ->
  update getAddress stateUpdate skipValidation w = (Return st, w1) ->
  update getAddress stateUpdate skipValidation w1 =
  (Return st,
   {| heap := heap w1; store := store w1; nullifier := (nullifier w1 + 1)%N |}).
Proof.
  intros Hid H1.
  pose proof (update_Return _ _ _ _ _ _ H1) as (Hst & Hs & _).
  assert (updater stateUpdate (store w1) = st) as Hst1.
  { rewrite Hs, Hst. apply updater_idempotent. }
  rewrite update_eq in H1. rewrite update_eq.
  destruct (chainId_step stateUpdate skipValidation) as [[]|e]; [|discriminate].
  cbn zeta in H1 |- *.
  destruct (fst (accounts_step getAddress stateUpdate skipValidation w))
    as [[]|e] eqn:Hfirst; [|discriminate].
  injection H1 as _ Hw1.
  assert (accounts_step getAddress stateUpdate skipValidation w1 = (Return tt, w1))
    as Hsecond.
  { revert Hfirst Hw1. unfold accounts_step.
    destruct (read (u_accounts stateUpdate)) as [l|];
      [destruct skipValidation; cbn [negb when]|]; try reflexivity.
    intros Hfirst Hw1.
    pose proof (validateAccounts_again l w Hid Hfirst) as Hagain.
    pose proof (validateAccounts_eq getAddress l w) as E.
    destruct (validateAccounts getAddress l w) as [r w'].
    cbn [fst snd] in *. injection E as _ Hw'.
    assert (heap w1 = heap w') as Hh by (rewrite <- Hw1; reflexivity).
    assert (forall u v : World,
              heap u = heap v ->
              fst (validateAccounts getAddress l u) =
                fst (validateAccounts getAddress l v) /\
              heap (snd (validateAccounts getAddress l u)) =
                heap (snd (validateAccounts getAddress l v))) as Hsame.
    { intros u v Huv. rewrite !validateAccounts_eq. cbn [fst snd heap].
      unfold array. rewrite Huv. auto. }
    destruct (Hsame w1 w' Hh) as [Hf Hheap].
    rewrite Hagain in Hf, Hheap. cbn [fst snd] in Hf, Hheap.
    pose proof (validateAccounts_eq getAddress l w1) as E1.
    destruct (validateAccounts getAddress l w1) as [r1 w1'].
    cbn [fst snd] in *. injection E1 as _ Hw1'. subst r1. f_equal.
    rewrite <- (world_eta w1), <- (world_eta w1'). f_equal.
    - congruence.
    - rewrite Hw1'. reflexivity.
    - rewrite Hw1'. reflexivity. }
  rewrite Hsecond. cbn [fst snd]. rewrite Hst1, Hs. reflexivity.
Qed.

Lemma exec_keeps_checksummed (call : Call) (w : World) :
  validating call ->
  (forall l : loc, accounts (store w) = Some l ->
                   Forall (is_checksummed getAddress) (array (heap w) l)) ->
  forall l : loc,
    accounts (store (exec getAddress call w)) = Some l ->
    Forall (is_checksummed getAddress) (array (heap (exec getAddress call w)) l).
Proof.
  intros Hcall Hw l.
  destruct call as [|stateUpdate skipValidation| | |c]; cbn [exec].
  - rewrite startActivation_eq. simpl. discriminate.
  - simpl in Hcall. subst skipValidation.
    rewrite update_eq.
    destruct (chainId_step stateUpdate false); [|apply Hw].
    unfold accounts_step.
    destruct (read (u_accounts stateUpdate)) as [l'|] eqn:Hl'.
    + cbn [negb when].
      pose proof (validateAccounts_array getAddress l' w) as Harr.
      pose proof (fun l0 => validateAccounts_others getAddress l' l0 w) as Hoth.
      pose proof (validateAccounts_eq getAddress l' w) as Heq.
      destruct (validateAccounts getAddress l' w) as [r w1].
      injection Heq as Hr Hw1. cbn [fst snd] in *.
      assert (store w1 = store w) as Hs by (rewrite Hw1; reflexivity).
      destruct (snd (checksum_prefix getAddress (array (heap w) l'))) as [e|] eqn:He;
        subst r; cbn [outcome store heap fst snd].
      * rewrite Hs. intros Hl.
        destruct (decide (l = l')) as [->|Hne].
        -- rewrite Harr. apply checksum_prefix_keeps. apply Hw. exact Hl.
        -- unfold array. rewrite (Hoth l Hne). apply Hw. exact Hl.
      * unfold updater; cbn [accounts]. rewrite Hl'.
        cbn [nullish]. intros [= <-].
        rewrite Harr. apply checksum_prefix_complete. exact He.
    + unfold ret. cbn [fst snd store heap]. unfold updater; cbn [accounts].
      rewrite Hl'. cbn [nullish]. apply Hw.
  - rewrite resetState_eq. simpl. discriminate.
  - simpl. apply Hw.
  - destruct (N.eq_dec (nullifier w) (nullifierCached c)) as [H|H].
    + rewrite cancelActivation_current by exact H. simpl. apply Hw.
    + rewrite cancelActivation_stale by exact H. simpl. apply Hw.
Qed.

(** X5. Along any run in which no [update] skips validation (the
    arrays being written by the engine only), the stored account list
    keeps holding only strings [getAddress] has returned, once it
    does (and it does vacuously while [accounts] is unset); this also
    covers an [update] that throws half-way through the array the
    state holds. *)
Theorem stored_accounts_stay_checksummed (calls : list Call) (w : World) :
  Forall validating calls ->
  (forall l : loc, accounts (store w) = Some l ->
                   Forall (is_checksummed getAddress) (array (heap w) l)) ->
  forall l : loc,
    accounts (store (run getAddress calls w)) = Some l ->
    Forall (is_checksummed getAddress)
      (array (heap (run getAddress calls w)) l).
Proof.
  intros Hv. revert w. induction Hv as [|call calls Hcall _ IH]; intros w Hw.
  - exact Hw.
  - rewrite run_cons. apply IH. apply exec_keeps_checksummed; assumption.
Qed.

Lemma run_keeps_checksummed (calls : list Call) (w : World) :
  Forall validating calls ->
  (forall l : loc, accounts (store w) = Some l ->
                   Forall (is_checksummed getAddress) (array (heap w) l)) ->
  forall l : loc,
    accounts (store (run getAddress calls w)) = Some l ->
    Forall (is_checksummed getAddress)
      (array (heap (run getAddress calls w)) l).
Proof.
  intros Hv. revert w. induction Hv as [|call calls Hcall _ IH]; intros w Hw.
  - exact Hw.
  - rewrite run_cons. apply IH. apply exec_keeps_checksummed; assumption.
Qed.

(** C6. Take a world reached by calls that never skip validation,
    from a world whose stored accounts are checksummed (a fresh engine
    is one), [getAddress] returning its own results unchanged; and an
    [update] carrying the array [l], validation not skipped. If the
    chain id (when given) is in bounds and [getAddress] accepts every
    entry, whatever their casing, [update] returns, [accounts] is that
    array, and each entry now is what [getAddress] gives for the entry
    supplied. If [getAddress] rejects some entry, be the others valid
    or not, [update] throws and the state is not touched: the store's
    fields, the counter and the array the state holds are as they
    were. *)
Theorem accounts_validated_before_any_write (calls : list Call) (w0 : World)
    (stateUpdate : Web3ReactStateUpdate) (l : loc) :
  getAddress_idempotent getAddress ->
  Forall validating calls ->
  (forall l0 : loc, accounts (store w0) = Some l0 ->
                    Forall (is_checksummed getAddress) (array (heap w0) l0)) ->
  read (u_accounts stateUpdate) = Some l ->
  let w := run getAddress calls w0 in
  ((forall x : number,
      read (u_chainId stateUpdate) = Some x -> chain_id_in_bounds x) ->
   Forall (fun a => is_Some (getAddress a)) (array (heap w) l) ->
   exists (st : Web3ReactState) (w' : World),
     update getAddress stateUpdate false w = (Return st, w') /\
     store w' = st /\
     accounts st = Some l /\
     Forall2 (fun a c => getAddress a = Some c)
       (array (heap w) l) (array (heap w') l)) /\
  (forall a : string,
     a ∈ array (heap w) l -> getAddress a = None ->
     exists (e : Error) (w' : World),
       update getAddress stateUpdate false w = (Throw e, w') /\
       store w' = store w /\
       nullifier w' = nullifier w /\
       (forall l0 : loc,
          accounts (store w) = Some l0 -> heap w' !! l0 = heap w !! l0)).
Proof.
  intros Hid Hv Hw0 Hl w.
  pose proof (run_keeps_checksummed calls w0 Hv Hw0) as Hw. fold w in Hw.
  destruct (update_accounts_outcome getAddress w stateUpdate l Hl)
    as [Hvalid Hinvalid].
  split; [exact Hvalid|].
  intros a Hin Hbad.
  destruct (Hinvalid a Hin Hbad) as (e & w' & Hthrow & Hs & Hn & Hothers & _).
  exists e, w'. split; [exact Hthrow|]. split; [exact Hs|]. split; [exact Hn|].
  intros l0 Hl0. apply Hothers. intros ->.
  pose proof (Hw l Hl0) as Hall. rewrite Forall_forall in Hall.
  destruct (Hall a Hin) as [supplied Hsupplied].
  rewrite (Hid supplied a Hsupplied) in Hbad. discriminate.
Qed.

End Invariants.

(** * Further properties: the hooks *)

Section Reading.

Context {AddingChainInfo SwitchingChainInfo WatchAssetParameters : Type}.
Variable getAddress : string -> option string.

Local Abbreviation Web3ReactState :=
  (@Web3ReactState AddingChainInfo SwitchingChainInfo WatchAssetParameters).
Local Abbreviation Web3ReactStateUpdate :=
  (@Web3ReactStateUpdate AddingChainInfo SwitchingChainInfo WatchAssetParameters).
Local Abbreviation World :=
  (@World AddingChainInfo SwitchingChainInfo WatchAssetParameters).

Lemma every_from_spec (new old : list string) :
  forall i : nat,
    every_from
      (fun oldAccount i =>
         match new !! i with
         | Some newAccount => String.eqb oldAccount newAccount
         | None => false
         end) i old = true <->
    (forall (k : nat) (x : string), old !! k = Some x -> new !! (i + k) = Some x).
Proof.
  induction old as [|y old IH]; intros i; simpl.
  - split; [intros _ k x; rewrite lookup_nil; discriminate | reflexivity].
  - rewrite andb_true_iff, IH. split.
    + intros [Hy Hrest] [|k] x; simpl.
      * intros [= <-]. rewrite Nat.add_0_r.
        destruct (new !! i) as [z|]; [|discriminate].
        apply String.eqb_eq in Hy. congruence.
      * intros Hk. rewrite <- Nat.add_succ_comm. exact (Hrest k x Hk).
    + intros H. split.
      * specialize (H 0 y eq_refl). rewrite Nat.add_0_r in H. rewrite H.
        apply String.eqb_refl.
      * intros k x Hk. rewrite Nat.add_succ_comm. exact (H (S k) x Hk).
Qed.

(** X6. The equality checker of [useAccounts] holds exactly when both
    sides are [undefined] or both are arrays holding the same strings
    in the same order. *)
Theorem accounts_equality_checker_spec (oldAccounts newAccounts : option (list string)) :
  accounts_equality_checker oldAccounts newAccounts = true <->
  oldAccounts = newAccounts.
Proof.
  destruct oldAccounts as [old|], newAccounts as [new|]; simpl;
    try (split; [discriminate | intros [=]]); [|tauto].
  rewrite andb_true_iff, Nat.eqb_eq, every_from_spec. split.
  - intros [Hlen H]. f_equal. apply list_eq. intros k.
    destruct (old !! k) as [x|] eqn:Hk.
    + symmetry. exact (H k x Hk).
    + symmetry. apply lookup_ge_None. apply lookup_ge_None in Hk. lia.
  - intros [= ->]. split; [reflexivity|]. intros k x Hk. exact Hk.
Qed.

Lemma element_natural (a : list string) (x : number) (i : nat) :
  Number.denotes x (Z.of_nat i) -> element a x = a !! i.
Proof.
  destruct x as [[n d]|b|]; simpl; try contradiction.
  unfold Qeq; simpl. rewrite Z.mul_1_r. intros ->.
  rewrite Z_mod_mult, Z.eqb_refl. simpl.
  unfold Qle_bool; simpl.
  assert ((0 * Z.pos d <=? Z.of_nat i * Z.pos d * 1)%Z = true) as ->
    by (apply Z.leb_le; lia).
  rewrite Z_div_mult by lia. rewrite Nat2Z.id. reflexivity.
Qed.

Lemma element_other (a : list string) (x : number) :
  (forall i : nat, ~ Number.denotes x (Z.of_nat i)) -> element a x = None.
Proof.
  intros Hx. destruct x as [[n d]|b|]; simpl; try reflexivity.
  destruct (n mod Z.pos d =? 0)%Z eqn:Hint; simpl; [|reflexivity].
  unfold Qle_bool; simpl.
  destruct (Z.leb_spec (0 * Z.pos d) (n * 1)) as [Hle|_]; [|reflexivity].
  exfalso. apply (Hx (Z.to_nat (n / Z.pos d))). simpl. unfold Qeq; simpl.
  apply Z.eqb_eq in Hint. apply Z_div_exact_2 in Hint; [|lia].
  rewrite Z2Nat.id; [lia|]. apply Z.div_pos; lia.
Qed.

Lemma natural_passes_guards (x : number) (i : nat) :
  Number.denotes x (Z.of_nat i) ->
  (Number.truthy x || strict_equal x (Number.of_Z 0)) = true /\
  greater_equal x (Number.of_Z 0) = true.
Proof.
  destruct x as [[n d]|b|]; simpl; try contradiction.
  unfold Qeq; simpl. rewrite Z.mul_1_r. intros ->. split.
  - destruct (Qeq_bool _ _); reflexivity.
  - unfold Qle_bool; simpl. apply Z.leb_le. lia.
Qed.

Lemma useAccount_unset (w : World) :
  useAccountIndex w = None -> useAccount w = None.
Proof.
  intros Hx. unfold useAccount. rewrite Hx. cbn [truthy_chainId].
  rewrite andb_false_r. reflexivity.
Qed.

Lemma useAccount_natural (w : World) (x : number) (i : nat) :
  useAccountIndex w = Some x -> Number.denotes x (Z.of_nat i) ->
  useAccount w = useAccounts w !! i.
Proof.
  intros Hx Hi. unfold useAccount. rewrite Hx. cbn [truthy_chainId].
  destruct (natural_passes_guards x i Hi) as [-> ->].
  rewrite !andb_true_r, (element_natural _ x i Hi).
  destruct (length (useAccounts w) =? 0) eqn:Hlen; cbn [negb]; [|reflexivity].
  apply Nat.eqb_eq in Hlen. symmetry. apply lookup_ge_None. lia.
Qed.

(** X7. [useAccount] is [accounts[accountIndex]]: the entry at index
    [i] when [accountIndex] is the integer [i >= 0] (hence [undefined]
    when [i] is past the end or the list is empty), and [undefined]
    when [accountIndex] is unset, negative, fractional, infinite or
    NaN; what it returns is always one of the accounts. *)
Theorem useAccount_spec (w : World) :
  (forall (x : number) (i : nat),
     useAccountIndex w = Some x -> Number.denotes x (Z.of_nat i) ->
     useAccount w = useAccounts w !! i) /\
  (forall x : number,
     useAccountIndex w = Some x ->
     (forall i : nat, ~ Number.denotes x (Z.of_nat i)) ->
     useAccount w = None) /\
  (useAccountIndex w = None -> useAccount w = None) /\
  (forall a : string, useAccount w = Some a -> a ∈ useAccounts w).
Proof.
  assert (forall x, useAccountIndex w = Some x ->
                    useAccount w = None \/ useAccount w = element (useAccounts w) x)
    as Hshape.
  { intros x Hx. unfold useAccount. rewrite Hx.
    destruct (_ && _ && _); auto. }
  pose proof (useAccount_unset w) as Hunset.
  split; [|split; [|split]].
  - exact (useAccount_natural w).
  - intros x Hx Hnot. destruct (Hshape x Hx) as [->| ->]; [reflexivity|].
    apply element_other. exact Hnot.
  - exact Hunset.
  - intros a Ha. destruct (useAccountIndex w) as [x|] eqn:Hx.
    + destruct (Hshape x eq_refl) as [H|H]; rewrite H in Ha; [discriminate|].
      destruct x as [q|b|]; cbn [element] in Ha; try discriminate.
      destruct (_ && _) in Ha; [|discriminate].
      apply list_elem_of_lookup. eauto.
    + rewrite Hunset in Ha by reflexivity. discriminate.
Qed.

(** X8. [useIsActive] does not look at the accounts: since the
    selector of [useAccounts] yields [accounts ?? []], it is true
    exactly when [chainId] is truthy and [activating] is false. So a
    fresh engine that is told a valid chain id, and nothing else, is
    active while [accounts] is still unset. *)
Theorem useIsActive_ignores_accounts (w : World) :
  (useIsActive w = true <->
   (exists x : number, chainId (store w) = Some x /\ nonzero x) /\
   activating (store w) = false) /\
  (forall (h : gmap loc (list string)) (x : number),
     chain_id_in_bounds x ->
     useIsActive
       (snd (update getAddress
               {| u_chainId := Present (Some x); u_accounts := Absent;
                  u_accountIndex := Absent; u_addingChain := Absent;
                  u_switchingChain := Absent; u_watchingAsset := Absent |}
               false (initial h : World))) = true /\
     accounts
       (store
          (snd (update getAddress
                  {| u_chainId := Present (Some x); u_accounts := Absent;
                     u_accountIndex := Absent; u_addingChain := Absent;
                     u_switchingChain := Absent; u_watchingAsset := Absent |}
                  false (initial h : World)))) = None).
Proof.
  split.
  - unfold useIsActive, computeIsActive, useChainId, useIsActivating. simpl.
    rewrite andb_true_r, andb_true_iff, negb_true_iff. split.
    + intros [Hc Ha]. split; [|exact Ha].
      destruct (chainId (store w)) as [x|]; [|discriminate].
      exists x. split; [reflexivity|]. apply truthy_spec. exact Hc.
    + intros [(x & -> & Hx) Ha]. split; [|exact Ha].
      simpl. apply truthy_spec. exact Hx.
  - intros h x Hx. rewrite update_eq. unfold chainId_step, accounts_step. simpl.
    apply validateChainId_Return in Hx as Hv. rewrite Hv. simpl.
    split; [|reflexivity].
    unfold useIsActive, computeIsActive, useChainId, useIsActivating. simpl.
    rewrite !andb_true_r. apply truthy_spec.
    destruct Hx as (z & Hz & Hb). split.
    + intros ->. exact Hz.
    + destruct x as [q|b|]; simpl in *; try contradiction.
      intros H0. rewrite H0 in Hz. unfold Qeq in Hz; simpl in Hz. lia.
Qed.

(** ** Selected and priority hooks *)

Context {Connector : Type} `{EqDecision Connector}.

Lemma findIndex_None {A : Type} (p : A -> bool) (l : list A) :
  findIndex p l = None <-> Forall (fun x => p x = false) l.
Proof.
  induction l as [|x l IH]; simpl.
  - split; [constructor | reflexivity].
  - destruct (p x) eqn:Hx.
    + split; [discriminate | intros H; inversion H; congruence].
    + destruct (findIndex p l); simpl.
      * split; [discriminate|]. intros H. inversion H; subst.
        apply IH in H3. discriminate.
      * split; [|reflexivity]. intros _. constructor; [exact Hx|].
        apply IH. reflexivity.
Qed.

Lemma findIndex_first {A : Type} (p : A -> bool) (l : list A) (i : nat) (x : A) :
  l !! i = Some x -> p x = true ->
  (forall (j : nat) (y : A), j < i -> l !! j = Some y -> p y = false) ->
  findIndex p l = Some i.
Proof.
  revert i. induction l as [|y l IH]; intros i Hi Hx Hbefore.
  - rewrite lookup_nil in Hi. discriminate.
  - destruct i as [|i]; simpl in *.
    + injection Hi as ->. rewrite Hx. reflexivity.
    + rewrite (Hbefore 0 y) by (simpl; auto; lia).
      rewrite (IH i Hi Hx); [reflexivity|].
      intros j z Hj Hz. apply (Hbefore (S j) z); [lia | exact Hz].
Qed.

Lemma getIndex_unknown (initializedConnectors : list (Connector * World))
    (connector : Connector) :
  connector ∉ map fst initializedConnectors ->
  getIndex initializedConnectors connector = Failed ConnectorNotFound.
Proof.
  intros Hnot. unfold getIndex.
  assert (findIndex (fun ic => bool_decide (connector = fst ic))
            initializedConnectors = None) as ->; [|reflexivity].
  apply findIndex_None. apply Forall_forall. intros ic Hic.
  apply bool_decide_eq_false. intros ->. apply Hnot.
  apply list_elem_of_fmap. eauto.
Qed.

Lemma getIndex_first (initializedConnectors : list (Connector * World))
    (connector : Connector) (i : nat) (w : World) :
  initializedConnectors !! i = Some (connector, w) ->
  (forall (j : nat) (ic : Connector * World),
     j < i -> initializedConnectors !! j = Some ic -> fst ic <> connector) ->
  getIndex initializedConnectors connector = Done i.
Proof.
  intros Hi Hbefore. unfold getIndex.
  rewrite (findIndex_first _ _ i (connector, w) Hi); [reflexivity| |].
  - apply bool_decide_eq_true. reflexivity.
  - intros j ic Hj Hic. apply bool_decide_eq_false.
    intros Heq. exact (Hbefore j ic Hj Hic (eq_sym Heq)).
Qed.

Lemma useSelected_first (initializedConnectors : list (Connector * World))
    (connector : Connector) (i : nat) (w : World) :
  initializedConnectors !! i = Some (connector, w) ->
  (forall (j : nat) (ic : Connector * World),
     j < i -> initializedConnectors !! j = Some ic -> fst ic <> connector) ->
  useSelectedChainId initializedConnectors connector = Done (useChainId w) /\
  useSelectedAccount initializedConnectors connector = Done (useAccount w) /\
  useSelectedIsActive initializedConnectors connector =
    Done (Some (useIsActive w)).
Proof.
  intros Hi Hbefore.
  unfold useSelectedChainId, useSelectedAccount, useSelectedIsActive.
  rewrite (getIndex_first _ _ i w Hi Hbefore).
  rewrite !list_lookup_fmap, Hi. auto.
Qed.

(** X9. A selected hook called with a connector that is not among
    [initializedConnectors] throws 'Connector not found'; called with
    one that is, it gives what the hooks of the first entry with that
    connector give. *)
Theorem useSelected_spec (initializedConnectors : list (Connector * World))
    (connector : Connector) :
  (connector ∉ map fst initializedConnectors ->
   useSelectedChainId initializedConnectors connector = Failed ConnectorNotFound /\
   useSelectedAccount initializedConnectors connector = Failed ConnectorNotFound /\
   useSelectedIsActive initializedConnectors connector = Failed ConnectorNotFound) /\
  (forall (i : nat) (w : World),
     initializedConnectors !! i = Some (connector, w) ->
     (forall (j : nat) (ic : Connector * World),
        j < i -> initializedConnectors !! j = Some ic -> fst ic <> connector) ->
     useSelectedChainId initializedConnectors connector = Done (useChainId w) /\
     useSelectedAccount initializedConnectors connector = Done (useAccount w) /\
     useSelectedIsActive initializedConnectors connector =
       Done (Some (useIsActive w))).
Proof.
  split.
  - intros Hnot.
    unfold useSelectedChainId, useSelectedAccount, useSelectedIsActive.
    rewrite (getIndex_unknown _ _ Hnot). auto.
  - exact (useSelected_first initializedConnectors connector).
Qed.

Lemma usePriorityConnector_first_active
    (initializedConnectors : list (Connector * World))
    (i : nat) (connector : Connector) (w : World) :
  initializedConnectors !! i = Some (connector, w) ->
  useIsActive w = true ->
  (forall (j : nat) (ic : Connector * World),
     j < i -> initializedConnectors !! j = Some ic ->
     useIsActive (snd ic) = false) ->
  usePriorityConnector initializedConnectors = Done connector.
Proof.
  intros Hi Hact Hbefore. unfold usePriorityConnector.
  rewrite (findIndex_first _ _ i true).
  - rewrite Hi. reflexivity.
  - rewrite list_lookup_fmap, Hi. simpl. by rewrite Hact.
  - reflexivity.
  - intros j b Hj. rewrite list_lookup_fmap.
    destruct (initializedConnectors !! j) as [ic|] eqn:Hic; [|discriminate].
    simpl. intros [= <-]. exact (Hbefore j ic Hj Hic).
Qed.

Lemma usePriorityConnector_none_active
    (initializedConnectors : list (Connector * World)) :
  Forall (fun ic => useIsActive (snd ic) = false) initializedConnectors ->
  usePriorityConnector initializedConnectors =
  match initializedConnectors with
  | [] => Failed TypeError
  | ic :: _ => Done (fst ic)
  end.
Proof.
  intros Hnone. unfold usePriorityConnector.
  assert (findIndex (fun isActive : bool => isActive)
            (map (fun ic => useIsActive (snd ic)) initializedConnectors) = None)
    as ->.
  { apply findIndex_None. apply Forall_fmap. exact Hnone. }
  destruct initializedConnectors; reflexivity.
Qed.

(** X10. [usePriorityConnector] gives the first connector whose
    [useIsActive] is true; when none is active it gives the first
    connector of the list, and on an empty list it fails reading
    [undefined[0]]. *)
Theorem usePriorityConnector_spec
    (initializedConnectors : list (Connector * World)) :
  (forall (i : nat) (connector : Connector) (w : World),
     initializedConnectors !! i = Some (connector, w) ->
     useIsActive w = true ->
     (forall (j : nat) (ic : Connector * World),
        j < i -> initializedConnectors !! j = Some ic ->
        useIsActive (snd ic) = false) ->
     usePriorityConnector initializedConnectors = Done connector) /\
  (Forall (fun ic => useIsActive (snd ic) = false) initializedConnectors ->
   forall (ic : Connector * World) (rest : list (Connector * World)),
     initializedConnectors = ic :: rest ->
     usePriorityConnector initializedConnectors = Done (fst ic)) /\
  (initializedConnectors = [] ->
   usePriorityConnector initializedConnectors = Failed TypeError).
Proof.
  split; [|split].
  - exact (usePriorityConnector_first_active initializedConnectors).
  - intros Hnone ic rest ->.
    exact (usePriorityConnector_none_active _ Hnone).
  - intros ->. reflexivity.
Qed.

(** X11. When no connector is listed twice, the priority hooks read
    the first active entry: [usePriorityIsActive] is true and
    [usePriorityChainId] is that entry's chain id. *)
Theorem usePriority_reads_first_active
    (initializedConnectors : list (Connector * World))
    (i : nat) (connector : Connector) (w : World) :
  NoDup (map fst initializedConnectors) ->
  initializedConnectors !! i = Some (connector, w) ->
  useIsActive w = true ->
  (forall (j : nat) (ic : Connector * World),
     j < i -> initializedConnectors !! j = Some ic ->
     useIsActive (snd ic) = false) ->
  usePriorityIsActive initializedConnectors = Done (Some true) /\
  usePriorityChainId initializedConnectors = Done (useChainId w).
Proof.
  intros Hnodup Hi Hact Hbefore.
  assert (forall (j : nat) (ic : Connector * World),
            j < i -> initializedConnectors !! j = Some ic -> fst ic <> connector)
    as Hfirst.
  { intros j ic Hj Hic Heq.
    assert (i = j); [|lia].
    apply (NoDup_lookup _ i j connector Hnodup);
      rewrite list_lookup_fmap; [rewrite Hi | rewrite Hic]; simpl; congruence. }
  destruct (useSelected_first initializedConnectors connector i w Hi Hfirst)
    as (Hc & _ & Ha).
  unfold usePriorityIsActive, usePriorityChainId.
  rewrite (usePriorityConnector_first_active _ i connector w Hi Hact Hbefore).
  rewrite Hc, Ha, Hact. auto.
Qed.

End Reading.

(** * Further properties: the connectors *)

Section Connecting.

Context {AddingChainInfo SwitchingChainInfo WatchAssetParameters : Type}.
Variable getAddress : string -> option string.
Variable parseChainId : string -> number.

Local Abbreviation Web3ReactState :=
  (@Web3ReactState AddingChainInfo SwitchingChainInfo WatchAssetParameters).
Local Abbreviation Web3ReactStateUpdate :=
  (@Web3ReactStateUpdate AddingChainInfo SwitchingChainInfo WatchAssetParameters).
Local Abbreviation World :=
  (@World AddingChainInfo SwitchingChainInfo WatchAssetParameters).

Lemma in_bounds_nonzero (x : number) : chain_id_in_bounds x -> nonzero x.
Proof.
  intros (z & Hz & Hb). split.
  - intros ->. exact Hz.
  - destruct x as [q|b|]; simpl in *; try contradiction.
    intros H0. rewrite H0 in Hz. unfold Qeq in Hz; simpl in Hz. lia.
Qed.

(** A patch that passes both validations is stored. *)
Lemma update_validated (stateUpdate : Web3ReactStateUpdate) (w : World) (l : loc) :
  (forall x : number,
     read (u_chainId stateUpdate) = Some x -> chain_id_in_bounds x) ->
  read (u_accounts stateUpdate) = Some l ->
  Forall (fun a => is_Some (getAddress a)) (array (heap w) l) ->
  exists w' : World,
    update getAddress stateUpdate false w =
      (Return (updater stateUpdate (store w)), w') /\
    store w' = updater stateUpdate (store w) /\
    nullifier w' = (nullifier w + 1)%N /\
    Forall2 (fun a c => getAddress a = Some c)
      (array (heap w) l) (array (heap w') l).
Proof.
  intros Hc Ha Hvalid.
  apply checksum_prefix_valid in Hvalid as [Hnone Hall].
  assert (chainId_step stateUpdate false = Return tt) as Hstep.
  { unfold chainId_step.
    destruct (read (u_chainId stateUpdate)) as [x|]; [|reflexivity].
    simpl. apply validateChainId_Return. auto. }
  assert (accounts_step getAddress stateUpdate false w =
          validateAccounts getAddress l w) as Hacc.
  { unfold accounts_step. rewrite Ha. reflexivity. }
  pose proof (validateAccounts_array getAddress l w) as Harr.
  rewrite update_eq, Hstep, Hacc.
  rewrite validateAccounts_eq in Harr |- *. cbn [fst snd] in *.
  rewrite Hnone. cbn [outcome].
  eexists. split; [reflexivity|]. cbn [store nullifier heap].
  split; [reflexivity|]. split; [reflexivity|].
  cbn [heap] in Harr. rewrite Harr. exact Hall.
Qed.

(** X12. Whatever happened since the activation began, once the
    wallet's reply carries a chain id in bounds and addresses
    [getAddress] accepts, the [then] handler of the EIP-1193 connector
    resolves with a state in which [activating] is false, [chainId]
    and [accounts] are the reply's, and [useIsActive] is true. *)
Theorem eip1193_reply_completes_activation (cancelActivation' : Cancel)
    (w : World) (chainId' : string) (accounts' : loc) :
  chain_id_in_bounds (parseChainId chainId') ->
  Forall (fun a => is_Some (getAddress a)) (array (heap w) accounts') ->
  exists (state : Web3ReactState) (w' : World),
    eip1193_settle getAddress parseChainId cancelActivation'
      (Fulfilled chainId' accounts') w = (Done state, w') /\
    store w' = state /\
    activating state = false /\
    chainId state = Some (parseChainId chainId') /\
    accounts state = Some accounts' /\
    Forall2 (fun a c => getAddress a = Some c)
      (array (heap w) accounts') (array (heap w') accounts') /\
    useIsActive w' = true.
Proof.
  intros Hc Hvalid.
  destruct (update_validated (connection_patch parseChainId chainId' accounts')
              w accounts') as (w' & Hupd & Hs & _ & Hall);
    [intros x [= <-]; exact Hc | reflexivity | exact Hvalid |].
  assert (Number.truthy (parseChainId chainId') = true) as Ht.
  { apply truthy_spec. apply in_bounds_nonzero. exact Hc. }
  assert (activating
            (updater (connection_patch parseChainId chainId' accounts') (store w))
          = false) as Hact.
  { unfold updater; simpl. rewrite Ht.
    destruct (activating (store w)); reflexivity. }
  exists (updater (connection_patch parseChainId chainId' accounts') (store w)), w'.
  unfold eip1193_settle. rewrite Hupd.
  repeat split; try assumption; try reflexivity.
  unfold useIsActive, computeIsActive, useChainId, useIsActivating.
  rewrite Hs, Hact. simpl. rewrite Ht. reflexivity.
Qed.


(** X14. But an event in between makes the failure handler stale: if
    a 'chainChanged' with a chain id in bounds arrives after
    [startActivation] and the requests then reject, the EIP-1193
    connector rejects and leaves the state as the event left it, with
    [activating] still true. *)
Theorem eip1193_rejection_after_chainChanged (w0 w1 : World)
    (cancelActivation' : Cancel) (chainId' reason : string) :
  eip1193_start w0 = (Return cancelActivation', w1) ->
  chain_id_in_bounds (parseChainId chainId') ->
  eip1193_settle getAddress parseChainId cancelActivation' (Rejected reason)
    (snd (eip1193_onChainChanged getAddress parseChainId chainId' w1)) =
    (Failed (ProviderRejected reason),
     snd (eip1193_onChainChanged getAddress parseChainId chainId' w1)) /\
  activating
    (store (snd (eip1193_onChainChanged getAddress parseChainId chainId' w1))) =
    true /\
  chainId
    (store (snd (eip1193_onChainChanged getAddress parseChainId chainId' w1))) =
    Some (parseChainId chainId').
Proof.
  unfold eip1193_start. rewrite startActivation_eq. intros [= <- <-] Hc.
  unfold eip1193_onChainChanged. rewrite update_eq.
  unfold chainId_step, accounts_step. simpl.
  apply validateChainId_Return in Hc. rewrite Hc. simpl.
  rewrite cancelActivation_stale by (simpl; lia).
  rewrite andb_false_r. auto.
Qed.

(** X15. The BSC connector treats a reply without accounts in two
    ways. Right after [startActivation], with a chain id in bounds and
    an empty account list: [connectEagerly] stores nothing and
    resolves with the default state, while [activate] stores the chain
    id and the empty list, leaves [accountIndex] unset and ends with
    [activating] false. *)
Theorem bsc_reply_without_accounts (w0 w1 : World) (cancelActivation' : Cancel)
    (chainId' : string) (accounts' : loc) :
  startActivation w0 = (Return cancelActivation', w1) ->
  array (heap w1) accounts' = [] ->
  chain_id_in_bounds (parseChainId chainId') ->
  (exists w2 : World,
     bsc_connectEagerly_settle getAddress parseChainId cancelActivation'
       (Fulfilled chainId' accounts') w1 = (Done DEFAULT_STATE, w2) /\
     store w2 = DEFAULT_STATE) /\
  (exists (state : Web3ReactState) (w2 : World),
     bsc_activate_settle getAddress parseChainId (Some cancelActivation')
       (Fulfilled chainId' accounts') w1 = (Done state, w2) /\
     store w2 = state /\
     chainId state = Some (parseChainId chainId') /\
     accounts state = Some accounts' /\
     array (heap w2) accounts' = [] /\
     accountIndex state = None /\
     activating state = false).
Proof.
  intros Hstart Hempty Hc. split.
  - rewrite startActivation_eq in Hstart. injection Hstart as <- <-.
    unfold bsc_connectEagerly_settle. cbn [heap] in *. rewrite Hempty.
    cbn [length Nat.eqb negb].
    rewrite cancelActivation_current by reflexivity.
    eexists. split; reflexivity.
  - destruct (update_validated (bsc_patch parseChainId (Some chainId') accounts' w1)
                w1 accounts') as (w2 & Hupd & Hs & _ & Hall);
      [intros x [= <-]; exact Hc | reflexivity | rewrite Hempty; constructor |].
    rewrite Hempty in Hall. apply Forall2_nil_inv_l in Hall.
    unfold bsc_activate_settle. rewrite Hupd.
    eexists _, _. split; [reflexivity|]. split; [exact Hs|].
    assert (Number.truthy (parseChainId chainId') = true) as Ht.
    { apply truthy_spec. apply in_bounds_nonzero. exact Hc. }
    unfold updater, bsc_patch; simpl. rewrite Hempty, Ht. simpl.
    repeat split; try reflexivity; try exact Hall.
    destruct (activating (store w1)); reflexivity.
Qed.

(** X16. The 'accountsChanged' listener of the BSC connector resets
    the state when the wallet reports no account; when it reports
    accounts [getAddress] accepts, they are stored with
    [accountIndex] 0, so that [useAccount] is the checksummed first
    account. *)
Theorem bsc_accountsChanged_selects_first (w : World) (accounts' : loc) :
  (array (heap w) accounts' = [] ->
   bsc_onAccountsChanged getAddress parseChainId accounts' w =
     (Return DEFAULT_STATE,
      {| heap := heap w; store := DEFAULT_STATE;
         nullifier := (nullifier w + 1)%N |})) /\
  (forall (first : string) (others : list string),
     array (heap w) accounts' = first :: others ->
     Forall (fun a => is_Some (getAddress a)) (first :: others) ->
     exists (state : Web3ReactState) (w' : World),
       bsc_onAccountsChanged getAddress parseChainId accounts' w = (Return state, w') /\
       store w' = state /\
       accounts state = Some accounts' /\
       accountIndex state = Some (Number.of_Z 0) /\
       is_Some (useAccount w') /\
       useAccount w' = getAddress first).
Proof.
  split.
  - intros Hempty. unfold bsc_onAccountsChanged. rewrite Hempty. reflexivity.
  - intros first others Harr Hvalid.
    destruct (update_validated (bsc_patch parseChainId None accounts' w)
                w accounts') as (w' & Hupd & Hs & _ & Hall);
      [intros x [=] | reflexivity | rewrite Harr; exact Hvalid |].
    unfold bsc_onAccountsChanged. rewrite Harr. cbn [length Nat.eqb].
    rewrite Hupd. eexists _, _. split; [reflexivity|]. split; [exact Hs|].
    assert (accounts (store w') = Some accounts') as Hacc.
    { rewrite Hs. reflexivity. }
    assert (accountIndex (store w') = Some (Number.of_Z 0)) as Hidx.
    { rewrite Hs. unfold updater, bsc_patch; simpl. rewrite Harr. reflexivity. }
    rewrite <- Hs. split; [exact Hacc|]. split; [exact Hidx|].
    rewrite (useAccount_natural w' (Number.of_Z 0) 0 Hidx) by reflexivity.
    unfold useAccounts. rewrite Hacc.
    rewrite Harr in Hall. inversion Hall as [|a c rest rest' Hc Hrest]; subst.
    simpl. rewrite Hc. split; [eauto | reflexivity].
Qed.

(** X17. The EIP-1193 connector, unlike the BSC one, stores an empty
    account list: after 'accountsChanged' with no account the state
    holds the empty list and nothing else changed but [activating],
    so a connector that was active stays active with no account to
    show. *)
Theorem eip1193_accountsChanged_keeps_empty_list (w : World) (accounts' : loc) :
  array (heap w) accounts' = [] ->
  exists (state : Web3ReactState) (w' : World),
    eip1193_onAccountsChanged getAddress accounts' w = (Return state, w') /\
    store w' = state /\
    accounts state = Some accounts' /\
    array (heap w') accounts' = [] /\
    chainId state = chainId (store w) /\
    accountIndex state = accountIndex (store w) /\
    (useIsActive w = true -> useIsActive w' = true /\ useAccount w' = None).
Proof.
  intros Hempty.
  destruct (update_validated (accounts_patch accounts') w accounts')
    as (w' & Hupd & Hs & _ & Hall);
    [intros x [=] | reflexivity | rewrite Hempty; constructor |].
  rewrite Hempty in Hall. apply Forall2_nil_inv_l in Hall.
  unfold eip1193_onAccountsChanged. rewrite Hupd.
  eexists _, _. split; [reflexivity|]. split; [exact Hs|].
  split; [reflexivity|]. split; [exact Hall|].
  split; [reflexivity|]. split; [reflexivity|].
  intros Hactive. split.
  - unfold useIsActive, computeIsActive, useChainId, useIsActivating in *.
    rewrite Hs. unfold updater; cbn [chainId activating accounts_patch
      u_chainId u_accounts read nullish].
    rewrite !andb_true_r in *.
    apply andb_true_iff in Hactive as [Hc Hact]. apply negb_true_iff in Hact.
    rewrite Hc, Hact. reflexivity.
  - unfold useAccount, useAccounts. rewrite Hs.
    unfold updater at 1; cbn [accounts accounts_patch u_accounts read nullish].
    rewrite Hall. reflexivity.
Qed.

End Connecting.

(** * The further properties at the sample connector *)

Lemma chainId_stays_in_bounds_witness :
  Forall validating
    [CallStartActivation; CallUpdate (chainId_update (Number.of_Z 56)) false] /\
  chainId
    (store
       (run sample_getAddress
          [CallStartActivation; CallUpdate (chainId_update (Number.of_Z 56)) false]
          fresh_world)) = Some (Number.of_Z 56) /\
  chain_id_in_bounds (Number.of_Z 56).
Proof.
  assert (Forall validating
            [CallStartActivation;
             CallUpdate (chainId_update (Number.of_Z 56)) false]) as Hv.
  { repeat constructor. }
  split; [exact Hv|]. split; [reflexivity|].
  refine (chainId_stays_in_bounds sample_getAddress _ fresh_world Hv _
            (Number.of_Z 56) eq_refl).
  intros x [=].
Defined.

Lemma activating_only_set_by_activation_witness :
  Forall not_activation
    [CallUpdate (chainId_update (Number.of_Z 56)) false; CallCancel first_cancel] /\
  activating (store fresh_world) = false /\
  activating
    (store
       (run sample_getAddress
          [CallUpdate (chainId_update (Number.of_Z 56)) false;
           CallCancel first_cancel]
          fresh_world)) = false.
Proof.
  assert (Forall not_activation
            [CallUpdate (chainId_update (Number.of_Z 56)) false;
             CallCancel first_cancel]) as Hn.
  { repeat constructor. }
  split; [exact Hn|]. split; [reflexivity|].
  exact (activating_only_set_by_activation sample_getAddress _ fresh_world
           Hn eq_refl).
Defined.

Lemma activating_means_incomplete_witness :
  activating
    (store
       (run sample_getAddress
          [CallStartActivation; CallUpdate (chainId_update (Number.of_Z 56)) false]
          fresh_world)) = true /\
  ~ ((exists x : number,
        chainId
          (store
             (run sample_getAddress
                [CallStartActivation;
                 CallUpdate (chainId_update (Number.of_Z 56)) false]
                fresh_world)) = Some x /\ nonzero x) /\
     is_Some
       (accounts
          (store
             (run sample_getAddress
                [CallStartActivation;
                 CallUpdate (chainId_update (Number.of_Z 56)) false]
                fresh_world)))).
Proof.
  split; [reflexivity|].
  refine (activating_means_incomplete sample_getAddress
            [CallStartActivation;
             CallUpdate (chainId_update (Number.of_Z 56)) false]
            fresh_world _ eq_refl).
  intros [=].
Defined.

Lemma sample_getAddress_idempotent : getAddress_idempotent sample_getAddress.
Proof.
  intros supplied checksummed. unfold sample_getAddress.
  destruct (String.eqb supplied lower_case_address);
    [intros [= <-]; reflexivity|].
  destruct (String.eqb supplied checksummed_address);
    [intros [= <-]; reflexivity | discriminate].
Defined.

Lemma update_twice_witness :
  getAddress_idempotent sample_getAddress /\
  update sample_getAddress (connect_update (Number.of_Z 56) 1%positive) false
    activating_world =
    (Return (store connected_world), connected_world) /\
  update sample_getAddress (connect_update (Number.of_Z 56) 1%positive) false
    connected_world =
    (Return (store connected_world),
     {| heap := heap connected_world; store := store connected_world;
        nullifier := 3 |}).
Proof.
  assert (update sample_getAddress
            (connect_update (Number.of_Z 56) 1%positive) false
            activating_world =
          (Return (store connected_world), connected_world)) as H1
    by (vm_compute; reflexivity).
  split; [exact sample_getAddress_idempotent|]. split; [exact H1|].
  exact (update_twice sample_getAddress _ false _ _ _
           sample_getAddress_idempotent H1).
Defined.

Lemma stored_accounts_stay_checksummed_witness :
  Forall validating
    [CallStartActivation;
     CallUpdate (connect_update (Number.of_Z 56) 1%positive) false;
     CallUpdate (accounts_update 2%positive) false] /\
  accounts
    (store
       (run sample_getAddress
          [CallStartActivation;
           CallUpdate (connect_update (Number.of_Z 56) 1%positive) false;
           CallUpdate (accounts_update 2%positive) false]
          fresh_world)) = Some 1%positive /\
  Forall (is_checksummed sample_getAddress)
    (array
       (heap
          (run sample_getAddress
             [CallStartActivation;
              CallUpdate (connect_update (Number.of_Z 56) 1%positive) false;
              CallUpdate (accounts_update 2%positive) false]
             fresh_world))
       1%positive).
Proof.
  assert (Forall validating
    [CallStartActivation;
     CallUpdate (connect_update (Number.of_Z 56) 1%positive) false;
     CallUpdate (accounts_update 2%positive) false]) as Hv.
  { repeat constructor. }
  split; [exact Hv|]. split; [reflexivity|].
  refine (stored_accounts_stay_checksummed sample_getAddress _ fresh_world Hv _
            1%positive eq_refl).
  intros l [=].
Defined.

Lemma useAccount_spec_witness :
  useAccountIndex busy_world = Some (Number.of_Z 0) /\
  Number.denotes (Number.of_Z 0) (Z.of_nat 0) /\
  useAccount busy_world = Some lower_case_address /\
  useAccount fresh_world = None.
Proof.
  split; [reflexivity|]. split; [reflexivity|]. split.
  - exact (proj1 (useAccount_spec busy_world) (Number.of_Z 0) 0%nat
             eq_refl (reflexivity _)).
  - exact (proj1 (proj2 (proj2 (useAccount_spec fresh_world))) eq_refl).
Defined.

Lemma useIsActive_ignores_accounts_witness :
  chain_id_in_bounds (Number.of_Z 56) /\
  useIsActive
    (snd (update sample_getAddress (chainId_update (Number.of_Z 56)) false
            fresh_world)) = true /\
  accounts
    (store
       (snd (update sample_getAddress (chainId_update (Number.of_Z 56)) false
               fresh_world))) = None.
Proof.
  assert (chain_id_in_bounds (Number.of_Z 56)) as Hin.
  { exists 56%Z. split; [reflexivity | lia]. }
  split; [exact Hin|].
  exact (proj2 (useIsActive_ignores_accounts sample_getAddress fresh_world)
           sample_heap (Number.of_Z 56) Hin).
Defined.

Lemma useSelected_spec_witness :
  (9 ∉ map fst sample_connectors) /\
  useSelectedChainId sample_connectors 9 = Failed ConnectorNotFound /\
  sample_connectors !! 1%nat = Some (2, connected_world) /\
  useSelectedChainId sample_connectors 2 = Done (Some (Number.of_Z 56)) /\
  useSelectedAccount sample_connectors 2 = Done None /\
  useSelectedIsActive sample_connectors 2 = Done (Some true).
Proof.
  assert (9 ∉ map fst sample_connectors) as Hnot.
  { apply (bool_decide_unpack _). vm_compute. reflexivity. }
  split; [exact Hnot|].
  split; [exact (proj1 (proj1 (useSelected_spec sample_connectors 9) Hnot))|].
  split; [reflexivity|].
  refine (proj2 (useSelected_spec sample_connectors 2) 1%nat connected_world
            eq_refl _).
  intros [|j] ic Hj; [intros [= <-]; discriminate | lia].
Defined.

Lemma usePriorityConnector_spec_witness :
  sample_connectors !! 1%nat = Some (2, connected_world) /\
  useIsActive connected_world = true /\
  useIsActive fresh_world = false /\
  usePriorityConnector sample_connectors = Done 2.
Proof.
  split; [reflexivity|]. split; [reflexivity|]. split; [reflexivity|].
  refine (proj1 (usePriorityConnector_spec sample_connectors) 1%nat 2
            connected_world eq_refl eq_refl _).
  intros [|j] ic Hj; [intros [= <-]; reflexivity | lia].
Defined.

Lemma usePriority_reads_first_active_witness :
  NoDup (map fst sample_connectors) /\
  usePriorityIsActive sample_connectors = Done (Some true) /\
  usePriorityChainId sample_connectors = Done (Some (Number.of_Z 56)).
Proof.
  assert (NoDup (map fst sample_connectors)) as Hnodup.
  { apply (bool_decide_unpack _). vm_compute. reflexivity. }
  split; [exact Hnodup|].
  refine (usePriority_reads_first_active sample_connectors 1%nat 2
            connected_world Hnodup eq_refl eq_refl _).
  intros [|j] ic Hj; [intros [= <-]; reflexivity | lia].
Defined.

(** With a connector listed twice the priority hooks can read the
    wrong entry: the priority connector is the active one, yet
    [usePriorityIsActive] reads the idle entry listed first. *)
Example usePriority_with_a_doubled_connector :
  usePriorityConnector doubled_connectors = Done 2 /\
  usePriorityIsActive doubled_connectors = Done (Some false) /\
  usePriorityChainId doubled_connectors = Done None.
Proof. vm_compute. repeat split. Qed.

Lemma eip1193_reply_completes_activation_witness :
  chain_id_in_bounds (sample_parseChainId "0x38") /\
  Forall (fun a => is_Some (sample_getAddress a))
    (array (heap activating_world) 1%positive) /\
  exists (state : sample_state) (w' : sample_world),
    eip1193_settle sample_getAddress sample_parseChainId first_cancel
      (Fulfilled "0x38" 1%positive) activating_world = (Done state, w') /\
    store w' = state /\
    activating state = false /\
    chainId state = Some (Number.of_Z 56) /\
    accounts state = Some 1%positive /\
    Forall2 (fun a c => sample_getAddress a = Some c)
      [lower_case_address; checksummed_address] (array (heap w') 1%positive) /\
    useIsActive w' = true.
Proof.
  assert (chain_id_in_bounds (sample_parseChainId "0x38")) as Hin.
  { exists 56%Z. split; [reflexivity | lia]. }
  assert (Forall (fun a => is_Some (sample_getAddress a))
            (array (heap activating_world) 1%positive)) as Hvalid.
  { repeat constructor; exists checksummed_address; reflexivity. }
  split; [exact Hin|]. split; [exact Hvalid|].
  exact (eip1193_reply_completes_activation sample_getAddress
           sample_parseChainId first_cancel activating_world "0x38" 1%positive
           Hin Hvalid).
Defined.


Lemma eip1193_rejection_after_chainChanged_witness :
  eip1193_start fresh_world = (Return first_cancel, activating_world) /\
  chain_id_in_bounds (sample_parseChainId "0x38") /\
  activating
    (store
       (snd (eip1193_onChainChanged sample_getAddress sample_parseChainId
               "0x38" activating_world))) = true /\
  fst (eip1193_settle sample_getAddress sample_parseChainId first_cancel
         (Rejected "User rejected the request.")
         (snd (eip1193_onChainChanged sample_getAddress sample_parseChainId
                 "0x38" activating_world))) =
    Failed (ProviderRejected "User rejected the request.").
Proof.
  assert (chain_id_in_bounds (sample_parseChainId "0x38")) as Hin.
  { exists 56%Z. split; [reflexivity | lia]. }
  destruct (eip1193_rejection_after_chainChanged sample_getAddress
              sample_parseChainId fresh_world activating_world first_cancel
              "0x38" "User rejected the request." eq_refl Hin)
    as (Hsettle & Hact & _).
  split; [reflexivity|]. split; [exact Hin|]. split; [exact Hact|].
  rewrite Hsettle. reflexivity.
Defined.

Lemma bsc_reply_without_accounts_witness :
  startActivation fresh_world = (Return first_cancel, activating_world) /\
  array (heap activating_world) 3%positive = [] /\
  chain_id_in_bounds (sample_parseChainId "0x38") /\
  fst (bsc_connectEagerly_settle sample_getAddress sample_parseChainId
         first_cancel (Fulfilled "0x38" 3%positive) activating_world) =
    Done DEFAULT_STATE /\
  exists (state : sample_state) (w2 : sample_world),
    bsc_activate_settle sample_getAddress sample_parseChainId (Some first_cancel)
      (Fulfilled "0x38" 3%positive) activating_world = (Done state, w2) /\
    store w2 = state /\
    chainId state = Some (Number.of_Z 56) /\
    accounts state = Some 3%positive /\
    array (heap w2) 3%positive = [] /\
    accountIndex state = None /\
    activating state = false.
Proof.
  assert (chain_id_in_bounds (sample_parseChainId "0x38")) as Hin.
  { exists 56%Z. split; [reflexivity | lia]. }
  destruct (bsc_reply_without_accounts sample_getAddress sample_parseChainId
              fresh_world activating_world first_cancel "0x38" 3%positive
              eq_refl eq_refl Hin) as [(w2 & Heager & _) Hactivate].
  split; [reflexivity|]. split; [reflexivity|]. split; [exact Hin|].
  split; [rewrite Heager; reflexivity | exact Hactivate].
Defined.

Lemma bsc_accountsChanged_selects_first_witness :
  array (heap connected_world) 2%positive =
    [lower_case_address; not_an_address] /\
  array (heap fresh_world) 1%positive =
    [lower_case_address; checksummed_address] /\
  Forall (fun a => is_Some (sample_getAddress a))
    [lower_case_address; checksummed_address] /\
  exists (state : sample_state) (w' : sample_world),
    bsc_onAccountsChanged sample_getAddress sample_parseChainId 1%positive
      fresh_world = (Return state, w') /\
    store w' = state /\
    accounts state = Some 1%positive /\
    accountIndex state = Some (Number.of_Z 0) /\
    is_Some (useAccount w') /\
    useAccount w' = Some checksummed_address.
Proof.
  assert (Forall (fun a => is_Some (sample_getAddress a))
            [lower_case_address; checksummed_address]) as Hvalid.
  { repeat constructor; exists checksummed_address; reflexivity. }
  split; [reflexivity|]. split; [reflexivity|]. split; [exact Hvalid|].
  exact (proj2 (bsc_accountsChanged_selects_first sample_getAddress
                  sample_parseChainId fresh_world 1%positive)
           lower_case_address [checksummed_address] eq_refl Hvalid).
Defined.

Lemma eip1193_accountsChanged_keeps_empty_list_witness :
  array (heap connected_world) 3%positive = [] /\
  useIsActive connected_world = true /\
  exists (state : sample_state) (w' : sample_world),
    eip1193_onAccountsChanged sample_getAddress 3%positive connected_world =
      (Return state, w') /\
    store w' = state /\
    accounts state = Some 3%positive /\
    array (heap w') 3%positive = [] /\
    chainId state = Some (Number.of_Z 56) /\
    accountIndex state = None /\
    useIsActive w' = true /\
    useAccount w' = None.
Proof.
  split; [reflexivity|]. split; [reflexivity|].
  destruct (eip1193_accountsChanged_keeps_empty_list sample_getAddress
              connected_world 3%positive eq_refl)
    as (state & w' & H1 & H2 & H3 & H4 & H5 & H6 & H7).
  exists state, w'. destruct (H7 eq_refl) as [H8 H9].
  repeat split; assumption.
Defined.

Lemma accounts_validated_before_any_write_witness :
  getAddress_idempotent sample_getAddress /\
  Forall validating
    [CallStartActivation;
     CallUpdate (connect_update (Number.of_Z 56) 1%positive) false] /\
  read (u_accounts (accounts_update 2%positive)) = Some 2%positive /\
  accounts (store connected_world) = Some 1%positive /\
  not_an_address ∈ array (heap connected_world) 2%positive /\
  sample_getAddress not_an_address = None /\
  exists (e : Error) (w' : sample_world),
    update sample_getAddress (accounts_update 2%positive) false connected_world =
      (Throw e, w') /\
    store w' = store connected_world /\
    nullifier w' = nullifier connected_world /\
    heap w' !! 1%positive = heap connected_world !! 1%positive.
Proof.
  assert (Forall validating
            [CallStartActivation;
             CallUpdate (connect_update (Number.of_Z 56) 1%positive) false])
    as Hv.
  { repeat constructor. }
  assert (not_an_address ∈ array (heap connected_world) 2%positive) as Hmem.
  { apply list_elem_of_further, list_elem_of_here. }
  assert (forall l0 : loc,
            accounts (store fresh_world) = Some l0 ->
            Forall (is_checksummed sample_getAddress)
              (array (heap fresh_world) l0)) as Hfresh.
  { intros l0 [=]. }
  split; [exact sample_getAddress_idempotent|]. split; [exact Hv|].
  split; [reflexivity|]. split; [reflexivity|]. split; [exact Hmem|].
  split; [reflexivity|].
  destruct (proj2 (accounts_validated_before_any_write sample_getAddress
                     [CallStartActivation;
                      CallUpdate (connect_update (Number.of_Z 56) 1%positive)
                        false]
                     fresh_world (accounts_update 2%positive) 2%positive
                     sample_getAddress_idempotent Hv Hfresh eq_refl)
              not_an_address Hmem eq_refl)
    as (e & w' & Hthrow & Hs & Hn & Hkeep).
  exists e, w'. split; [exact Hthrow|]. split; [exact Hs|]. split; [exact Hn|].
  exact (Hkeep 1%positive eq_refl).
Defined.

(** The condition on the stored accounts is needed. Once a list that
    was never validated has been stored with validation skipped
    ([aliased_world]) and the connector passes that same array again,
    validated, the call throws after the first entry of the stored
    list has been rewritten. *)
Example failed_update_after_skipped_validation :
  accounts (store aliased_world) = Some 2%positive /\
  array (heap aliased_world) 2%positive =
    [lower_case_address; not_an_address] /\
  fst (update sample_getAddress (accounts_update 2%positive) false
         aliased_world) =
    Throw (InvalidAddress not_an_address) /\
  accounts (store (snd (update sample_getAddress (accounts_update 2%positive)
                          false aliased_world))) = Some 2%positive /\
  array (heap (snd (update sample_getAddress (accounts_update 2%positive)
                      false aliased_world))) 2%positive =
    [checksummed_address; not_an_address].
Proof. vm_compute. repeat split. Qed.
